(** * SpeakerStream: splitting speech-to-text results by speaker

    A shallow embedding of [speech-to-text/speaker-stream.js].  The stream is
    an object-mode [Transform]: every message written to it goes through
    [_transform], which accumulates word timestamps ([handleResults]), merges
    speaker labels ([handleSpeakerLabels]) and re-derives the whole
    conversation ([process]); [_flush] runs when the stream closes.

    - JavaScript numbers are IEEE 754 binary64 values, i.e. Rocq's primitive
      [float]; [===] and [<] are [PrimFloat.eqb] and [PrimFloat.ltb].
    - The two arrays held by the stream live in a store and the stream object
      holds references to them, so that what an error object carries is a
      reference, as in the source.
    - [this.emit('error', err)] and [this.push(msg)] are recorded, in order,
      in the list of events an operation returns. *)

From Stdlib Require Import ZArith Floats DecimalString Sorted.
From stdpp Require Import base strings list sorting.

(** ** JavaScript numbers *)

(** [x === y] on numbers: false on NaN, true on [0] and [-0]. *)
Definition strict_eq (x y : float) : bool := PrimFloat.eqb x y.

(** [x !== y] *)
Definition strict_ne (x y : float) : bool := negb (strict_eq x y).

(** [x < y] *)
Definition less_than (x y : float) : bool := PrimFloat.ltb x y.

(** A number that is not NaN: the only values with [x !== x] are NaNs. *)
Definition is_number (x : float) : bool := strict_eq x x.

(** [n] printed in decimal, as string concatenation prints a length. *)
Definition number_to_string (n : nat) : string :=
  NilEmpty.string_of_uint (Nat.to_uint n).

(** ** Data *)

(** An entry of [timestamps]: the array [[word, from time, to time]].  The
    projections bear the names of the source's position constants. *)
Record Timestamp := { WORD : string; FROM : float; TO : float }.

Module Label.
(** An entry of [speaker_labels]. *)
Record t := mk {
  from : float;
  to : float;
  speaker : float;
  confidence : float;
  final : bool
}.
End Label.

Module Alternative.
Record t := mk { transcript : string; timestamps : list Timestamp }.
End Alternative.

Module Result.
(** A result of an incoming message.  [alternatives_0] is
    [result.alternatives[0]], the only alternative the stream reads. *)
Record t := mk { final : bool; alternatives_0 : Alternative.t }.
End Result.

Module Data.
(** An incoming message.  [None] is a field that is not an array
    ([Array.isArray] is false).  The arrays of a message are the caller's:
    the stream copies their elements and keeps no reference to them. *)
Record t := mk {
  results : option (list Result.t);
  speaker_labels : option (list Label.t)
}.
End Data.

Module SpeakerResult.
(** A result of an outgoing message: one "line" of one speaker.
    [alternatives_0] is the single element of the [alternatives] array
    literal that [process] builds. *)
Record t := mk {
  speaker : float;
  alternatives_0 : Alternative.t;
  final : bool
}.
End SpeakerResult.

Module Message.
(** What [process] pushes downstream. *)
Record t := mk { results : list SpeakerResult.t; result_index : nat }.
End Message.

(** ** The store and the stream object *)

(** A reference to an array: its index in the store. *)
Abbreviation loc := nat (only parsing).

(** The arrays allocated so far, by kind; a reference is an index. *)
Record Heap := {
  timestamp_arrays : list (list Timestamp);
  label_arrays : list (list Label.t)
}.

Module SpeakerStream.
(** The fields of [this]. *)
Record t := mk { timestamps : loc; speaker_labels : loc }.
End SpeakerStream.

Record State := { heap : Heap; this : SpeakerStream.t }.

Module JsError.
(** An [Error] with the properties the stream sets on it; [None] reads as
    [undefined].  The two collections are attached by reference. *)
Record t := mk {
  name : string;
  message : string;
  speaker_label : option Label.t;
  timestamp : option Timestamp;
  speaker_labels : option loc;
  timestamps : option loc
}.
End JsError.

(** What the stream sends out. *)
Inductive Event :=
  | EmitError (err : JsError.t)   (* this.emit('error', err) *)
  | Push (msg : Message.t).       (* this.push(msg) *)

(** The contents of the array a reference points to. *)
Definition read_timestamps (h : Heap) (l : loc) : list Timestamp :=
  default [] (timestamp_arrays h !! l).

Definition read_labels (h : Heap) (l : loc) : list Label.t :=
  default [] (label_arrays h !! l).

(** [this.timestamps] and [this.speaker_labels], dereferenced. *)
Definition the_timestamps (s : State) : list Timestamp :=
  read_timestamps (heap s) (SpeakerStream.timestamps (this s)).

Definition the_speaker_labels (s : State) : list Label.t :=
  read_labels (heap s) (SpeakerStream.speaker_labels (this s)).

(** The constructor: two fresh empty arrays. *)
Definition new_SpeakerStream : State :=
  {| heap := {| timestamp_arrays := [[]]; label_arrays := [[]] |};
     this := SpeakerStream.mk 0 0 |}.

(** ** isFinal *)

(** [this.speaker_labels.length && this.speaker_labels[length - 1].final];
    the falsy [0] of an empty collection is rendered as [false]. *)
Definition isFinal (s : State) : bool :=
  let speaker_labels := the_speaker_labels s in
  if (length speaker_labels =? 0)%nat then false
  else match speaker_labels !! (length speaker_labels - 1)%nat with
       | Some label => Label.final label
       | None => false
       end.

Definition ERROR_MISMATCH : string := "MISMATCH".

(** ** process *)

(** The error built at the first mismatch. *)
Definition mismatch_error (s : State) (label : Label.t)
    (timestamp : option Timestamp) : JsError.t :=
  {| JsError.name := ERROR_MISMATCH;
     JsError.message := "Mismatch between speaker_label and word timestamp";
     JsError.speaker_label := Some label;
     JsError.timestamp := timestamp;
     JsError.speaker_labels := Some (SpeakerStream.speaker_labels (this s));
     JsError.timestamps := Some (SpeakerStream.timestamps (this s)) |}.

(** [!timestamp || timestamp[FROM] !== label.from || timestamp[TO] !== label.to] *)
Definition mismatched (timestamp : option Timestamp) (label : Label.t) : bool :=
  match timestamp with
  | None => true
  | Some t => strict_ne (FROM t) (Label.from label) || strict_ne (TO t) (Label.to label)
  end.

(** The callback of [this.speaker_labels.map].  The captured variable
    [errored] is passed in and returned; the events are those emitted by this
    call. *)
Definition pair_callback (s : State) (errored : bool) (label : Label.t) (i : nat)
    : option (Timestamp * Label.t) * bool * list Event :=
  let timestamp := the_timestamps s !! i in
  if mismatched timestamp label then
    if negb errored
    then (None, true, [EmitError (mismatch_error s label timestamp)])
    else (None, errored, [])
  else
    match timestamp with
    | Some t => (Some (t, label), errored, [])
    | None => (None, errored, [])      (* excluded by [mismatched] *)
    end.

(** [labels.map(callback)] from index [i] on, threading [errored]. *)
Fixpoint map_pairs (s : State) (errored : bool) (i : nat) (labels : list Label.t)
    : list (option (Timestamp * Label.t)) * bool * list Event :=
  match labels with
  | [] => ([], errored, [])
  | label :: rest =>
      let '(pr, errored1, evs1) := pair_callback s errored label i in
      let '(pairs, errored2, evs2) := map_pairs s errored1 (S i) rest in
      (pr :: pairs, errored2, evs1 ++ evs2)
  end.

(** The result started by a pair whose speaker is new. *)
Definition new_result (final : bool) (t : Timestamp) (label : Label.t)
    : SpeakerResult.t :=
  {| SpeakerResult.speaker := Label.speaker label;
     SpeakerResult.alternatives_0 :=
       {| Alternative.transcript := WORD t +:+ " ";
          Alternative.timestamps := [t] |};
     SpeakerResult.final := final |}.

(** The current result with one more word. *)
Definition append_word (currentResult : SpeakerResult.t) (t : Timestamp)
    : SpeakerResult.t :=
  let alt := SpeakerResult.alternatives_0 currentResult in
  {| SpeakerResult.speaker := SpeakerResult.speaker currentResult;
     SpeakerResult.alternatives_0 :=
       {| Alternative.transcript := Alternative.transcript alt +:+ (WORD t +:+ " ");
          Alternative.timestamps := Alternative.timestamps alt ++ [t] |};
     SpeakerResult.final := SpeakerResult.final currentResult |}.

(** The callback of [pairs.reduce].  [currentResult] is the last element of
    [arr]; mutating it updates that element in place.  A [null] pair is never
    passed: [process] returns before the reduction when a mismatch occurred. *)
Definition reduce_callback (final : bool) (arr : list SpeakerResult.t)
    (pr : option (Timestamp * Label.t)) : list SpeakerResult.t :=
  match pr with
  | None => arr
  | Some (t, label) =>
      match last arr with
      | Some currentResult =>
          if strict_ne (SpeakerResult.speaker currentResult) (Label.speaker label)
          then arr ++ [new_result final t label]
          else <[(length arr - 1)%nat := append_word currentResult t]> arr
      | None => arr ++ [new_result final t label]
      end
  end.

(** One segmentation pass.  It reads the two collections and writes to
    neither; the state is returned as every operation returns it. *)
Definition process (s : State) : State * list Event :=
  let final := isFinal s in
  let '(pairs, errored, evs) := map_pairs s false 0 (the_speaker_labels s) in
  if errored then (s, evs)
  else
    let results := fold_left (reduce_callback final) pairs [] in
    if (length results =? 0)%nat then (s, evs)
    else (s, evs ++ [Push {| Message.results := results; Message.result_index := 0 |}]).

(** ** handleSpeakerLabels *)

(** [speakerLabelsSorter] *)
Definition speakerLabelsSorter (a b : Label.t) : Z :=
  if strict_eq (Label.from a) (Label.from b) then
    if strict_eq (Label.to a) (Label.to b) then 0
    else if less_than (Label.to a) (Label.to b) then (-1) else 1
  else if less_than (Label.from a) (Label.from b) then (-1) else 1.

(** The comparator handed to [pullAllWith]. *)
Definition same_span (old nw : Label.t) : bool :=
  strict_eq (Label.from old) (Label.from nw) && strict_eq (Label.to old) (Label.to nw).

(** lodash's [pullAllWith(array, values, comparator)]: drops from [array]
    every element that [comparator] matches with some element of [values]. *)
Definition pullAllWith {A : Type} (array values : list A) (comparator : A -> A -> bool)
    : list A :=
  List.filter (fun old => negb (existsb (comparator old) values)) array.

(** [Array.prototype.sort(comparefn)], as a stable insertion sort: [x] goes
    before the first element it does not compare greater than.  The language
    requires the sort to be stable and fixes its outcome only for a consistent
    [comparefn]; [speakerLabelsSorter] is consistent on spans that are numbers
    and is not on NaN, which it puts after everything on either side. *)
Fixpoint sort_insert {A : Type} (comparefn : A -> A -> Z) (x : A) (l : list A) : list A :=
  match l with
  | [] => [x]
  | y :: rest =>
      if (comparefn x y <=? 0)%Z then x :: y :: rest
      else y :: sort_insert comparefn x rest
  end.

Definition sort {A : Type} (comparefn : A -> A -> Z) (l : list A) : list A :=
  foldr (sort_insert comparefn) [] l.

(** What the label array holds after a merge of [new_labels]: stale entries
    pulled, the new ones pushed, the whole sorted. *)
Definition merge_labels (old new_labels : list Label.t) : list Label.t :=
  sort speakerLabelsSorter (pullAllWith old new_labels same_span ++ new_labels).

(** The label array is updated in place: the reference held by [this] (and
    by anything else) stays the same. *)
Definition handleSpeakerLabels (s : State) (data : Data.t) : State :=
  match Data.speaker_labels data with
  | None => s                       (* not reached: guarded by [_transform] *)
  | Some speaker_labels =>
      let l := SpeakerStream.speaker_labels (this s) in
      {| heap :=
           {| timestamp_arrays := timestamp_arrays (heap s);
              label_arrays :=
                <[l := merge_labels (the_speaker_labels s) speaker_labels]>
                  (label_arrays (heap s)) |};
         this := this s |}
  end.

(** ** handleResults and _transform *)

(** [this.timestamps = this.timestamps.concat(added)]: [concat] allocates a
    new array and the field is set to it. *)
Definition concat_timestamps (s : State) (added : list Timestamp) : State :=
  {| heap :=
       {| timestamp_arrays :=
            timestamp_arrays (heap s) ++ [the_timestamps s ++ added];
          label_arrays := label_arrays (heap s) |};
     this :=
       SpeakerStream.mk (length (timestamp_arrays (heap s)))
                        (SpeakerStream.speaker_labels (this s)) |}.

Section Collaborators.

(** [require('./no-timestamps')]: the check of a message for missing
    timestamps, and the error name it exports. *)
Variable noTimestamps : Data.t -> bool.
Variable ERROR_NO_TIMESTAMPS : string.

Definition no_timestamps_error : JsError.t :=
  {| JsError.name := ERROR_NO_TIMESTAMPS;
     JsError.message :=
       "SpeakerStream requires that timestamps and speaker_labels be enabled";
     JsError.speaker_label := None;
     JsError.timestamp := None;
     JsError.speaker_labels := None;
     JsError.timestamps := None |}.

Definition handleResults (s : State) (data : Data.t) : State * list Event :=
  if noTimestamps data then (s, [EmitError no_timestamps_error])
  else
    match Data.results data with
    | None => (s, [])               (* not reached: guarded by [_transform] *)
    | Some results =>
        (fold_left
           (fun s result =>
              concat_timestamps s
                (Alternative.timestamps (Result.alternatives_0 result)))
           (List.filter Result.final results) s,
         [])
    end.

Definition _transform (s : State) (data : Data.t) : State * list Event :=
  let '(s1, evs1) :=
    match Data.results data with
    | Some _ => handleResults s data
    | None => (s, [])
    end in
  let s2 :=
    match Data.speaker_labels data with
    | Some _ => handleSpeakerLabels s1 data
    | None => s1
    end in
  let '(s3, evs3) := process s2 in
  (s3, evs1 ++ evs3).

(** A run of the stream: the messages written to it, in order. *)
Definition run (s : State) (inputs : list Data.t) : State * list Event :=
  fold_left
    (fun acc data =>
       let '(s', evs) := _transform (fst acc) data in (s', snd acc ++ evs))
    inputs (s, []).

End Collaborators.

(** ** _flush *)

(** The message of the error of [_flush]; a non-zero length is truthy. *)
Definition flush_message (s : State) : string :=
  if negb (length (the_timestamps s) =? 0)%nat && (length (the_speaker_labels s) =? 0)%nat
  then "No speaker_labels found. SpeakerStream requires speaker_labels to be enabled."
  else "Mismatch between number of word timestamps ("
         +:+ number_to_string (length (the_timestamps s))
         +:+ ") and number of speaker_labels ("
         +:+ number_to_string (length (the_speaker_labels s))
         +:+ ") - some data may be lost.".

Definition _flush (s : State) : State * list Event :=
  if negb (length (the_timestamps s) =? length (the_speaker_labels s))%nat then
    (s, [EmitError
           {| JsError.name := ERROR_MISMATCH;
              JsError.message := flush_message s;
              JsError.speaker_label := None;
              JsError.timestamp := None;
              JsError.speaker_labels := Some (SpeakerStream.speaker_labels (this s));
              JsError.timestamps := Some (SpeakerStream.timestamps (this s)) |}])
  else (s, []).

(** ** Vocabulary of the statements *)

(** The first index, counted from [i], whose label has no matching timestamp,
    with that label. *)
Fixpoint first_mismatch (timestamps : list Timestamp) (i : nat)
    (labels : list Label.t) : option (nat * Label.t) :=
  match labels with
  | [] => None
  | label :: rest =>
      if mismatched (timestamps !! i) label then Some (i, label)
      else first_mismatch timestamps (S i) rest
  end.

Definition errors_of (evs : list Event) : list JsError.t :=
  omap (fun ev => match ev with EmitError err => Some err | Push _ => None end) evs.

Definition messages_of (evs : list Event) : list Message.t :=
  omap (fun ev => match ev with Push msg => Some msg | EmitError _ => None end) evs.

(** The results (segments) of all the messages pushed, in order. *)
Definition pushed_results (evs : list Event) : list SpeakerResult.t :=
  concat (map Message.results (messages_of evs)).

Definition result_timestamps (r : SpeakerResult.t) : list Timestamp :=
  Alternative.timestamps (SpeakerResult.alternatives_0 r).

Definition result_transcript (r : SpeakerResult.t) : string :=
  Alternative.transcript (SpeakerResult.alternatives_0 r).

(** The index, among all the words, at which each result starts, when the
    first one starts at [k]. *)
Fixpoint segment_starts (k : nat) (results : list SpeakerResult.t) : list nat :=
  match results with
  | [] => []
  | r :: rest => k :: segment_starts (k + length (result_timestamps r)) rest
  end.

(** Index [i] is [0], or the speaker at [i] is [!==] the speaker at [i - 1]. *)
Definition speaker_changes (speakers : list float) (i : nat) : bool :=
  match i with
  | 0 => true
  | S j =>
      match speakers !! j, speakers !! i with
      | Some a, Some b => strict_ne a b
      | _, _ => false
      end
  end.

(** Each word followed by one space. *)
Fixpoint spaced_words (ts : list Timestamp) : string :=
  match ts with
  | [] => ""
  | t :: rest => WORD t +:+ " " +:+ spaced_words rest
  end.

(** Both ends of the span are numbers (not NaN). *)
Definition proper_span (label : Label.t) : bool :=
  is_number (Label.from label) && is_number (Label.to label).

(** [speakerLabelsSorter] does not ask for [b] before [a]. *)
Definition in_order (a b : Label.t) : Prop := (speakerLabelsSorter a b <= 0)%Z.

(** A message that carries speaker labels only. *)
Definition label_update (speaker_labels : list Label.t) : Data.t :=
  {| Data.results := None; Data.speaker_labels := Some speaker_labels |}.

(** The references held by [this] point into the store. *)
Definition well_formed (s : State) : Prop :=
  SpeakerStream.timestamps (this s) < length (timestamp_arrays (heap s)) /\
  SpeakerStream.speaker_labels (this s) < length (label_arrays (heap s)).

(** From [s] to [s'] the stream is still well formed, every timestamp array
    allocated in [s] is still there with the same contents, and
    [this.speaker_labels] is still the same array object. *)
Definition evolves (s s' : State) : Prop :=
  well_formed s' /\
  timestamp_arrays (heap s) `prefix_of` timestamp_arrays (heap s') /\
  SpeakerStream.speaker_labels (this s') = SpeakerStream.speaker_labels (this s) /\
  length (label_arrays (heap s')) = length (label_arrays (heap s)).

(** The speaker labels of a message, if any, have spans that are numbers. *)
Definition proper_input (data : Data.t) : Prop :=
  match Data.speaker_labels data with
  | Some speaker_labels => Forall (fun l => proper_span l = true) speaker_labels
  | None => True
  end.

(** ** Example data *)

Definition word_yes : Timestamp := {| WORD := "Yes"; FROM := 0; TO := 0.5 |}.
Definition word_there : Timestamp := {| WORD := "there"; FROM := 0.5; TO := 1 |}.
Definition word_right : Timestamp := {| WORD := "right"; FROM := 1; TO := 1.5 |}.

Definition example_label (from to speaker : float) (final : bool) : Label.t :=
  {| Label.from := from; Label.to := to; Label.speaker := speaker;
     Label.confidence := 0.5; Label.final := final |}.

(** A stream whose two arrays hold [timestamps] and [labels]. *)
Definition example_stream (timestamps : list Timestamp) (labels : list Label.t)
    : State :=
  {| heap := {| timestamp_arrays := [timestamps]; label_arrays := [labels] |};
     this := SpeakerStream.mk 0 0 |}.

(** A message that carries final results only, one per list of timestamps. *)
Definition results_update (timestamps : list (list Timestamp)) : Data.t :=
  {| Data.results :=
       Some (map (fun ts => Result.mk true (Alternative.mk "" ts)) timestamps);
     Data.speaker_labels := None |}.

(** Modelled from the spec: [./no-timestamps] is not among the sources; the
    spec describes it as a pure check of a message for missing word
    timestamps.  This instance, used to run examples, reports a message one of
    whose results has no timestamps. *)
Definition example_noTimestamps (data : Data.t) : bool :=
  match Data.results data with
  | Some results =>
      existsb
        (fun r => (length (Alternative.timestamps (Result.alternatives_0 r)) =? 0)%nat)
        results
  | None => false
  end.

Definition example_ERROR_NO_TIMESTAMPS : string := "NO_TIMESTAMPS".

(** Three words by two speakers, the labels aligned with the timestamps. *)
Definition two_speakers : State :=
  example_stream [word_yes; word_there; word_right]
    [example_label 0 0.5 1 false; example_label 0.5 1 1 false;
     example_label 1 1.5 2 true].

(** Two words, the second label ending later than the second timestamp. *)
Definition misaligned : State :=
  example_stream [word_yes; word_there]
    [example_label 0 0.5 1 false; example_label 0.5 2 1 false].

(** A message without timestamps that also carries a speaker label. *)
Definition untimed_message : Data.t :=
  {| Data.results := Some [Result.mk true (Alternative.mk "Yes" [])];
     Data.speaker_labels := Some [example_label 0 0.5 1 true] |}.

(** The messages that lead a new stream to [misaligned], and a later message
    that revises nothing but adds the label the second word was missing. *)
Definition misaligned_inputs : list Data.t :=
  [results_update [[word_yes; word_there]];
   label_update [example_label 0 0.5 1 false; example_label 0.5 2 1 false]].

Definition late_label : Data.t := label_update [example_label 0.5 1 1 true].

(** The messages that lead a new stream to the collections of
    [two_speakers], the timestamps arriving in two results. *)
Definition two_speakers_inputs : list Data.t :=
  [results_update [[word_yes; word_there]; [word_right]];
   label_update [example_label 1 1.5 2 true; example_label 0 0.5 1 false;
                 example_label 0.5 1 1 false]].

(** Five timestamps and three labels. *)
Definition unbalanced : State :=
  example_stream [word_yes; word_there; word_right; word_yes; word_there]
    [example_label 0 0.5 1 false; example_label 0.5 1 1 false;
     example_label 1 1.5 2 true].

(** ** Vocabulary of the further properties *)

(** The timestamps of the final results of a message, in order. *)
Definition final_timestamps (results : list Result.t) : list Timestamp :=
  concat (map (fun r => Alternative.timestamps (Result.alternatives_0 r))
              (List.filter Result.final results)).

(** The timestamps a message adds to the stream, given the check of
    [./no-timestamps]: those of its final results when it has a results array
    that the check lets through. *)
Definition accepted_timestamps (noTimestamps : Data.t -> bool) (data : Data.t)
    : list Timestamp :=
  match Data.results data with
  | Some results => if noTimestamps data then [] else final_timestamps results
  | None => []
  end.

(** The label arrays of the messages that carry one, in order. *)
Definition label_batches (inputs : list Data.t) : list (list Label.t) :=
  omap Data.speaker_labels inputs.

(** No two entries, at different places, have the same span. *)
Definition distinct_spans (labels : list Label.t) : Prop :=
  ForallOrdPairs (fun a b => same_span a b = false) labels.

(** The transcripts of the results, put end to end. *)
Definition joined_transcripts (results : list SpeakerResult.t) : string :=
  foldr (fun r acc => result_transcript r +:+ acc) "" results.

(** A message with two final results and an interim one between them. *)
Definition mixed_results : Data.t :=
  {| Data.results :=
       Some [Result.mk true (Alternative.mk "Yes " [word_yes]);
             Result.mk false (Alternative.mk "the " [word_there]);
             Result.mk true (Alternative.mk "there " [word_there])];
     Data.speaker_labels := None |}.

(** * Properties *)

(** ** Numbers: [===] is a partial equivalence, [<] orders the non-NaN values *)

Lemma SFcompare_antisym x y :
  SFcompare y x = option_map CompOpp (SFcompare x y).
Proof.
  destruct x as [sx|sx| |sx mx ex], y as [sy|sy| |sy my ey]; simpl;
    try reflexivity;
    try (destruct sx; reflexivity); try (destruct sy; reflexivity);
    try (destruct sx, sy; reflexivity).
  change (Pos.compare_cont Eq my mx) with (Pos.compare my mx).
  change (Pos.compare_cont Eq mx my) with (Pos.compare mx my).
  destruct sx, sy; try reflexivity; rewrite (Z.compare_antisym ex ey);
    destruct (ex ?= ey)%Z; simpl; try reflexivity; f_equal;
    rewrite (Pos.compare_antisym mx my); reflexivity.
Qed.

Lemma SFcompare_Eq_subst x y z :
  SFcompare x y = Some Eq -> SFcompare x z = SFcompare y z.
Proof.
  destruct x as [sx|sx| |sx mx ex], y as [sy|sy| |sy my ey]; simpl;
    try discriminate;
    try (destruct sx; discriminate); try (destruct sy; discriminate).
  - intros _. destruct z; reflexivity.
  - destruct sx, sy; try discriminate; reflexivity.
  - change (Pos.compare_cont Eq mx my) with (Pos.compare mx my).
    destruct sx, sy; try discriminate;
      destruct (Z.compare_spec ex ey); try discriminate; subst;
      destruct (Pos.compare_spec mx my); try discriminate; subst; reflexivity.
Qed.

Lemma strict_eq_sym x y : strict_eq x y = strict_eq y x.
Proof.
  unfold strict_eq. rewrite !FloatAxioms.eqb_spec. unfold SFeqb.
  rewrite (SFcompare_antisym (Prim2SF x) (Prim2SF y)).
  destruct (SFcompare (Prim2SF x) (Prim2SF y)) as [[]|]; reflexivity.
Qed.

(** Numbers that are [===] cannot be told apart by [===]. *)
Lemma strict_eq_subst x y z :
  strict_eq x y = true -> strict_eq x z = strict_eq y z.
Proof.
  unfold strict_eq. rewrite !FloatAxioms.eqb_spec. unfold SFeqb. intros H.
  rewrite (SFcompare_Eq_subst (Prim2SF x) (Prim2SF y) (Prim2SF z)); [reflexivity|].
  destruct (SFcompare (Prim2SF x) (Prim2SF y)) as [[]|]; try discriminate; reflexivity.
Qed.

Lemma strict_eq_trans x y z :
  strict_eq x y = true -> strict_eq y z = true -> strict_eq x z = true.
Proof. intros Hxy Hyz. rewrite (strict_eq_subst x y z Hxy). exact Hyz. Qed.

Lemma strict_eq_is_number_r x y : strict_eq x y = true -> is_number y = true.
Proof.
  intros H. unfold is_number. rewrite <- (strict_eq_subst x y y H). exact H.
Qed.

(** Two non-NaN numbers that are neither [===] nor [<] are [>]. *)
Lemma less_than_total x y :
  is_number x = true -> is_number y = true ->
  strict_eq x y = false -> less_than x y = false -> less_than y x = true.
Proof.
  unfold is_number, strict_eq, less_than.
  rewrite !FloatAxioms.eqb_spec, !FloatAxioms.ltb_spec. unfold SFeqb, SFltb.
  rewrite (SFcompare_antisym (Prim2SF x) (Prim2SF y)).
  destruct (Prim2SF x) as [sx|sx| |sx mx ex] eqn:Ex;
    destruct (Prim2SF y) as [sy|sy| |sy my ey] eqn:Ey;
    try (simpl; discriminate);
    intros _ _;
    match goal with
    | |- context [option_map _ ?c] =>
        destruct c as [[]|] eqn:Ec; simpl; try discriminate; try reflexivity
    end;
    simpl in Ec; discriminate.
Qed.

Lemma SFcompare_Lt_trans x y z :
  SFcompare x y = Some Lt -> SFcompare y z = Some Lt -> SFcompare x z = Some Lt.
Proof.
  destruct x as [sx|sx| |sx mx ex], y as [sy|sy| |sy my ey], z as [sz|sz| |sz mz ez];
    simpl; try discriminate;
    try (destruct sx; simpl; try discriminate; try reflexivity);
    try (destruct sy; simpl; try discriminate; try reflexivity);
    try (destruct sz; simpl; try discriminate; try reflexivity);
    try (intros _ Habs; discriminate Habs).
  all: repeat match goal with
       | |- context [Pos.compare_cont Eq ?a ?b] =>
           change (Pos.compare_cont Eq a b) with (Pos.compare a b)
       end.
  all: intros H1 H2.
  all: repeat match goal with
       | H : context [Z.compare ?a ?b] |- _ =>
           destruct (Z.compare_spec a b); simpl in H; try discriminate H
       | H : context [Pos.compare ?a ?b] |- _ =>
           destruct (Pos.compare_spec a b); simpl in H; try discriminate H
       end; subst.
  all: repeat match goal with
       | |- context [Z.compare ?a ?b] => destruct (Z.compare_spec a b); try lia
       | |- context [Pos.compare ?a ?b] => destruct (Pos.compare_spec a b); try lia
       end; simpl; try reflexivity; try lia.
Qed.

Lemma less_than_trans x y z :
  less_than x y = true -> less_than y z = true -> less_than x z = true.
Proof.
  unfold less_than. rewrite !FloatAxioms.ltb_spec. unfold SFltb. intros Hxy Hyz.
  rewrite (SFcompare_Lt_trans (Prim2SF x) (Prim2SF y) (Prim2SF z)); [reflexivity| |].
  - destruct (SFcompare (Prim2SF x) (Prim2SF y)) as [[]|]; try discriminate; reflexivity.
  - destruct (SFcompare (Prim2SF y) (Prim2SF z)) as [[]|]; try discriminate; reflexivity.
Qed.

Lemma less_than_subst_l x y z :
  strict_eq x y = true -> less_than x z = less_than y z.
Proof.
  unfold strict_eq, less_than. rewrite FloatAxioms.eqb_spec, !FloatAxioms.ltb_spec.
  unfold SFeqb, SFltb. intros H.
  rewrite (SFcompare_Eq_subst (Prim2SF x) (Prim2SF y) (Prim2SF z)); [reflexivity|].
  destruct (SFcompare (Prim2SF x) (Prim2SF y)) as [[]|]; try discriminate; reflexivity.
Qed.

Lemma less_than_subst_r x y z :
  strict_eq y z = true -> less_than x y = less_than x z.
Proof.
  unfold strict_eq, less_than. rewrite FloatAxioms.eqb_spec, !FloatAxioms.ltb_spec.
  unfold SFeqb, SFltb. intros H.
  rewrite (SFcompare_antisym (Prim2SF y) (Prim2SF x)).
  rewrite (SFcompare_antisym (Prim2SF z) (Prim2SF x)).
  rewrite (SFcompare_Eq_subst (Prim2SF y) (Prim2SF z) (Prim2SF x)); [reflexivity|].
  destruct (SFcompare (Prim2SF y) (Prim2SF z)) as [[]|]; try discriminate; reflexivity.
Qed.

Lemma less_than_not_eq x y : less_than x y = true -> strict_eq x y = false.
Proof.
  unfold strict_eq, less_than. rewrite FloatAxioms.eqb_spec, FloatAxioms.ltb_spec.
  unfold SFeqb, SFltb.
  destruct (SFcompare (Prim2SF x) (Prim2SF y)) as [[]|]; try discriminate; reflexivity.
Qed.

(** ** The pairing pass *)

Lemma first_mismatch_None ts i labels :
  first_mismatch ts i labels = None ->
  forall k label, labels !! k = Some label -> mismatched (ts !! (i + k)) label = false.
Proof.
  revert i. induction labels as [|l rest IH]; intros i H k label Hk.
  - rewrite lookup_nil in Hk. discriminate.
  - simpl in H. destruct (mismatched (ts !! i) l) eqn:Hm; [discriminate|].
    destruct k as [|k]; simpl in Hk.
    + injection Hk as <-. rewrite Nat.add_0_r. exact Hm.
    + rewrite Nat.add_succ_r. apply (IH (S i) H k label Hk).
Qed.

Lemma first_mismatch_Some ts i labels j label :
  first_mismatch ts i labels = Some (j, label) ->
  i <= j /\ labels !! (j - i) = Some label /\ mismatched (ts !! j) label = true /\
  forall k l, k < j - i -> labels !! k = Some l -> mismatched (ts !! (i + k)) l = false.
Proof.
  revert i. induction labels as [|l rest IH]; intros i H; simpl in H; [discriminate|].
  destruct (mismatched (ts !! i) l) eqn:Hm.
  - injection H as <- <-. rewrite Nat.sub_diag. repeat split; auto. intros; lia.
  - destruct (IH (S i) H) as (Hle & Hl & Hmj & Hbefore).
    split; [lia|]. split.
    + replace (j - i) with (S (j - S i)) by lia. exact Hl.
    + split; [exact Hmj|]. intros k l' Hk Hl'. destruct k as [|k]; simpl in Hl'.
      * injection Hl' as <-. rewrite Nat.add_0_r. exact Hm.
      * rewrite Nat.add_succ_r. apply (Hbefore k l'); [lia | exact Hl'].
Qed.

(** Once [errored] is set, later mismatches emit nothing. *)
Lemma map_pairs_errored s i labels :
  snd (fst (map_pairs s true i labels)) = true /\ snd (map_pairs s true i labels) = [].
Proof.
  revert i. induction labels as [|l rest IH]; intros i; simpl; [auto|].
  unfold pair_callback.
  destruct (mismatched (the_timestamps s !! i) l); simpl.
  - destruct (IH (S i)) as [He Hv].
    destruct (map_pairs s true (S i) rest) as [[ps e] evs]. simpl in *. auto.
  - destruct (the_timestamps s !! i);
      destruct (IH (S i)) as [He Hv];
      destruct (map_pairs s true (S i) rest) as [[ps e] evs]; simpl in *; auto.
Qed.

(** The flag and the events of the pairing pass, from its first mismatch. *)
Lemma map_pairs_first_mismatch s i labels :
  let r := map_pairs s false i labels in
  match first_mismatch (the_timestamps s) i labels with
  | Some (j, label) =>
      snd (fst r) = true /\
      snd r = [EmitError (mismatch_error s label (the_timestamps s !! j))]
  | None =>
      snd (fst r) = false /\ snd r = [] /\
      fst (fst r) =
        zip_with (fun t label => Some (t, label)) (drop i (the_timestamps s)) labels /\
      length labels <= length (drop i (the_timestamps s))
  end.
Proof.
  revert i. induction labels as [|l rest IH]; intros i; simpl.
  - repeat split; auto; [|lia]. destruct (drop i (the_timestamps s)); reflexivity.
  - unfold pair_callback.
    destruct (mismatched (the_timestamps s !! i) l) eqn:Hm; simpl.
    + destruct (map_pairs_errored s (S i) rest) as [He Hv].
      destruct (map_pairs s true (S i) rest) as [[ps e] evs]. simpl in *.
      subst. auto.
    + destruct (the_timestamps s !! i) as [t|] eqn:Ht; [|discriminate].
      specialize (IH (S i)). simpl in IH.
      destruct (map_pairs s false (S i) rest) as [[ps e] evs]. simpl in *.
      destruct (first_mismatch (the_timestamps s) (S i) rest) as [[j label]|].
      * exact IH.
      * destruct IH as (He & Hv & Hps & Hlen).
        rewrite (drop_S _ _ _ Ht). simpl. rewrite Hps.
        repeat split; auto. lia.
Qed.

Lemma process_mismatch s j label :
  first_mismatch (the_timestamps s) 0 (the_speaker_labels s) = Some (j, label) ->
  process s = (s, [EmitError (mismatch_error s label (the_timestamps s !! j))]).
Proof.
  intros H. unfold process.
  pose proof (map_pairs_first_mismatch s 0 (the_speaker_labels s)) as Hm.
  simpl in Hm. rewrite H in Hm. destruct Hm as [He Hv].
  destruct (map_pairs s false 0 (the_speaker_labels s)) as [[ps e] evs].
  simpl in *. subst. reflexivity.
Qed.

Lemma process_aligned s :
  first_mismatch (the_timestamps s) 0 (the_speaker_labels s) = None ->
  let results :=
    fold_left (reduce_callback (isFinal s))
      (zip_with (fun t label => Some (t, label)) (the_timestamps s) (the_speaker_labels s))
      [] in
  length (the_speaker_labels s) <= length (the_timestamps s) /\
  process s =
    (s, if (length results =? 0)%nat then []
        else [Push {| Message.results := results; Message.result_index := 0 |}]).
Proof.
  intros H. unfold process.
  pose proof (map_pairs_first_mismatch s 0 (the_speaker_labels s)) as Hm.
  simpl in Hm. rewrite H in Hm. destruct Hm as (He & Hv & Hps & Hlen).
  rewrite drop_0 in Hps, Hlen.
  destruct (map_pairs s false 0 (the_speaker_labels s)) as [[ps e] evs].
  simpl in *. subst. split; [exact Hlen|].
  destruct (length _ =? 0)%nat; reflexivity.
Qed.

(** ** The grouping pass *)

Lemma string_append_assoc (a b c : string) : (a +:+ b) +:+ c = a +:+ (b +:+ c).
Proof.
  induction a as [|ch a IH]; [reflexivity|].
  change (String ch ((a +:+ b) +:+ c) = String ch (a +:+ (b +:+ c))).
  rewrite IH. reflexivity.
Qed.

Lemma spaced_words_snoc ts t :
  spaced_words (ts ++ [t]) = spaced_words ts +:+ (WORD t +:+ " ").
Proof.
  induction ts as [|t' ts IH].
  - change (WORD t +:+ " " +:+ "" = "" +:+ (WORD t +:+ " ")).
    change ("" +:+ (WORD t +:+ " ")) with (WORD t +:+ " ").
    rewrite <- string_append_assoc.
    generalize (WORD t +:+ " "). intros a.
    induction a as [|ch a IHa]; [reflexivity|].
    change (String ch (a +:+ "") = String ch a). rewrite IHa. reflexivity.
  - change (WORD t' +:+ " " +:+ spaced_words (ts ++ [t])
            = (WORD t' +:+ " " +:+ spaced_words ts) +:+ (WORD t +:+ " ")).
    rewrite IH. rewrite !string_append_assoc. reflexivity.
Qed.

Lemma segment_starts_snoc k rs r :
  segment_starts k (rs ++ [r])
  = segment_starts k rs ++ [k + length (concat (map result_timestamps rs))].
Proof.
  revert k. induction rs as [|r' rs IH]; intros k; simpl.
  - rewrite Nat.add_0_r. reflexivity.
  - rewrite IH, length_app. f_equal. f_equal. f_equal. lia.
Qed.

Lemma speaker_changes_app_l speakers extra i :
  i < length speakers ->
  speaker_changes (speakers ++ extra) i = speaker_changes speakers i.
Proof.
  intros Hi. destruct i as [|j]; [reflexivity|]. simpl.
  rewrite !lookup_app_l by lia. reflexivity.
Qed.

Lemma speaker_changes_snoc speakers a b n :
  n = length (speakers ++ [a]) ->
  speaker_changes ((speakers ++ [a]) ++ [b]) n = strict_ne a b.
Proof.
  intros ->. rewrite length_app. simpl. rewrite Nat.add_1_r. simpl.
  rewrite lookup_app_l by (rewrite length_app; simpl; lia).
  rewrite (lookup_app_r speakers) by lia. rewrite Nat.sub_diag. simpl.
  rewrite lookup_app_r by (rewrite length_app; simpl; lia).
  rewrite length_app. simpl.
  replace (S (length speakers) - (length speakers + 1)) with 0 by lia.
  reflexivity.
Qed.

Lemma filter_seq_snoc (f g : nat -> bool) n :
  (forall i, i < n -> f i = g i) ->
  List.filter f (seq 0 (S n)) = List.filter g (seq 0 n) ++ (if f n then [n] else []).
Proof.
  intros Hfg. rewrite seq_S, List.filter_app. simpl. f_equal.
  apply List.filter_ext_in. intros i Hi. apply in_seq in Hi. apply Hfg. lia.
Qed.

Lemma reduce_invariant final (ps : list (Timestamp * Label.t)) :
  let rs := fold_left (reduce_callback final) (map Some ps) [] in
  concat (map result_timestamps rs) = map fst ps /\
  segment_starts 0 rs
  = List.filter (speaker_changes (map (fun p => Label.speaker (snd p)) ps))
      (seq 0 (length ps)) /\
  Forall (fun r => result_transcript r = spaced_words (result_timestamps r) /\
                   SpeakerResult.final r = final /\
                   result_timestamps r <> []) rs /\
  (forall r, last rs = Some r ->
     exists p, last ps = Some p /\
       forall z, strict_eq (SpeakerResult.speaker r) z
                 = strict_eq (Label.speaker (snd p)) z).
Proof.
  induction ps as [|[t l] ps IH] using rev_ind; simpl.
  - repeat split; auto. intros r Hr. discriminate.
  - rewrite map_app, fold_left_app. simpl.
    destruct IH as (H1 & H2 & H3 & H4).
    set (rs := fold_left (reduce_callback final) (map Some ps) []) in *.
    destruct (last rs) as [r|] eqn:Hlast.
    + destruct (H4 r eq_refl) as (p0 & Hp0 & Hobs).
      apply last_Some in Hlast as [rs0 Hrs0].
      apply last_Some in Hp0 as [ps0 ->].
      rewrite Hrs0 in *. clear Hrs0 rs.
      assert (Hlen : length (concat (map result_timestamps (rs0 ++ [r])))
                     = length (ps0 ++ [p0])).
      { rewrite H1, length_map. reflexivity. }
      unfold strict_ne. rewrite (Hobs (Label.speaker l)).
      rewrite !map_app. simpl.
      rewrite (length_app (ps0 ++ [p0]) [(t, l)]). simpl.
      rewrite Nat.add_1_r.
      rewrite (filter_seq_snoc _
                 (speaker_changes (map (fun p => Label.speaker (snd p)) ps0
                                   ++ [Label.speaker (snd p0)]))).
      2:{ intros i Hi. apply speaker_changes_app_l.
          rewrite length_app, length_map. rewrite length_app in Hi. exact Hi. }
      rewrite (speaker_changes_snoc _ _ _ (length (ps0 ++ [p0])))
        by (rewrite !length_app, length_map; reflexivity).
      unfold strict_ne.
      rewrite !map_app in H2. simpl in H2.
      destruct (strict_eq (Label.speaker (snd p0)) (Label.speaker l)) eqn:Hsp; simpl.
      * (* same speaker: the word joins the current result *)
        rewrite insert_app_r_alt by (rewrite length_app; simpl; lia).
        replace (length (rs0 ++ [r]) - 1 - length rs0) with 0
          by (rewrite length_app; simpl; lia).
        simpl. split; [|split; [|split]].
        -- rewrite !map_app, !concat_app in *. simpl in *.
           unfold result_timestamps at 2. simpl.
           change (Alternative.timestamps (SpeakerResult.alternatives_0 r))
             with (result_timestamps r).
           rewrite !app_nil_r in *. rewrite app_assoc, H1. reflexivity.
        -- rewrite segment_starts_snoc. rewrite segment_starts_snoc in H2.
           rewrite H2, app_nil_r. reflexivity.
        -- apply Forall_app in H3 as [H3a H3b]. apply Forall_app. split; [exact H3a|].
           apply Forall_singleton in H3b as (Htr & Hfin & Hne).
           apply Forall_singleton. unfold result_transcript, result_timestamps in *.
           simpl. repeat split.
           ++ rewrite spaced_words_snoc, Htr. reflexivity.
           ++ exact Hfin.
           ++ intros Habs. destruct (Alternative.timestamps _); discriminate.
        -- intros r' Hr'. rewrite last_snoc in Hr'. injection Hr' as <-.
           exists (t, l). rewrite last_snoc. split; [reflexivity|]. simpl.
           intros z. apply strict_eq_subst. rewrite Hobs. exact Hsp.
      * (* new speaker: a new result starts *)
        split; [|split; [|split]].
        -- rewrite map_app, concat_app. simpl. rewrite H1, map_app. reflexivity.
        -- rewrite segment_starts_snoc, H2, Hlen. reflexivity.
        -- apply Forall_app. split; [exact H3|]. apply Forall_singleton.
           repeat split. discriminate.
        -- intros r' Hr'. rewrite last_snoc in Hr'. injection Hr' as <-.
           exists (t, l). rewrite last_snoc. split; reflexivity.
    + apply last_None in Hlast. rewrite Hlast in *. simpl in H1.
      destruct ps as [|p1 ps]; [|discriminate]. simpl.
      repeat split.
      * constructor; [|constructor]. repeat split. discriminate.
      * intros r Hr. injection Hr as <-. exists (t, l). split; reflexivity.
Qed.

Lemma segment_starts_length k rs : length (segment_starts k rs) = length rs.
Proof.
  revert k. induction rs as [|r rs IH]; intros k; simpl; [reflexivity|].
  rewrite IH. reflexivity.
Qed.

(** Every result bears the speaker of the label at the index it starts at. *)
Lemma reduce_speakers final (ps : list (Timestamp * Label.t)) :
  let rs := fold_left (reduce_callback final) (map Some ps) [] in
  Forall2
    (fun r i =>
       map (fun p => Label.speaker (snd p)) ps !! i = Some (SpeakerResult.speaker r))
    rs (segment_starts 0 rs).
Proof.
  induction ps as [|[t l] ps IH] using rev_ind; simpl; [constructor|].
  destruct (reduce_invariant final ps) as (H1 & _ & _ & _).
  rewrite !map_app, fold_left_app. simpl. simpl in IH.
  set (rs := fold_left (reduce_callback final) (map Some ps) []) in *.
  assert (Hlen : length (concat (map result_timestamps rs)) = length ps).
  { rewrite H1, length_map. reflexivity. }
  assert (Hweak : forall (r : SpeakerResult.t) (i : nat),
            map (fun p => Label.speaker (snd p)) ps !! i = Some (SpeakerResult.speaker r) ->
            (map (fun p => Label.speaker (snd p)) ps ++ [Label.speaker l]) !! i
            = Some (SpeakerResult.speaker r)).
  { intros r i Hi. apply lookup_app_l_Some. exact Hi. }
  assert (Hnew : Forall2
            (fun r i =>
               (map (fun p => Label.speaker (snd p)) ps ++ [Label.speaker l]) !! i
               = Some (SpeakerResult.speaker r))
            (rs ++ [new_result final t l]) (segment_starts 0 (rs ++ [new_result final t l]))).
  { rewrite segment_starts_snoc. apply Forall2_app.
    - eapply Forall2_impl; [exact IH|]. exact Hweak.
    - constructor; [|constructor]. simpl. rewrite Hlen.
      rewrite lookup_app_r by (rewrite length_map; lia).
      rewrite length_map, Nat.sub_diag. reflexivity. }
  destruct (last rs) as [r|] eqn:Hlast; [|exact Hnew].
  destruct (strict_ne (SpeakerResult.speaker r) (Label.speaker l)); [exact Hnew|].
  clear Hnew. apply last_Some in Hlast as [rs0 Hrs0]. rewrite Hrs0 in *.
  rewrite insert_app_r_alt by (rewrite length_app; simpl; lia).
  replace (length (rs0 ++ [r]) - 1 - length rs0) with 0
    by (rewrite length_app; simpl; lia).
  simpl. rewrite segment_starts_snoc in *.
  apply Forall2_app_inv in IH as [IH0 IHr]; [|symmetry; apply segment_starts_length].
  apply Forall2_app.
  - eapply Forall2_impl; [exact IH0|]. exact Hweak.
  - apply Forall2_cons_1 in IHr as [IHr _]. constructor; [|constructor].
    apply Hweak. exact IHr.
Qed.

Lemma zip_with_Some (ts : list Timestamp) (labels : list Label.t) :
  zip_with (fun t label => Some (t, label)) ts labels = map Some (zip ts labels).
Proof.
  revert labels. induction ts as [|t ts IH]; intros [|l labels]; simpl; auto.
  rewrite IH. reflexivity.
Qed.

Lemma zip_fst_take (ts : list Timestamp) (labels : list Label.t) :
  length labels <= length ts ->
  map fst (zip ts labels) = take (length labels) ts.
Proof.
  revert labels.
  induction ts as [|t ts IH]; intros [|l labels] Hlen; simpl in *; auto; try lia.
  rewrite IH by lia. reflexivity.
Qed.

Lemma zip_snd_speakers (ts : list Timestamp) (labels : list Label.t) :
  length labels <= length ts ->
  map (fun p => Label.speaker (snd p)) (zip ts labels) = map Label.speaker labels.
Proof.
  revert labels.
  induction ts as [|t ts IH]; intros [|l labels] Hlen; simpl in *; auto; try lia.
  rewrite IH by lia. reflexivity.
Qed.

Lemma zip_length_labels (ts : list Timestamp) (labels : list Label.t) :
  length labels <= length ts -> length (zip ts labels) = length labels.
Proof.
  revert labels.
  induction ts as [|t ts IH]; intros [|l labels] Hlen; simpl in *; auto; try lia.
  rewrite IH by lia. reflexivity.
Qed.

Lemma process_state s : fst (process s) = s.
Proof.
  unfold process.
  destruct (map_pairs s false 0 (the_speaker_labels s)) as [[ps e] evs].
  destruct e; [reflexivity|].
  destruct (length _ =? 0)%nat; reflexivity.
Qed.

Lemma process_no_error s :
  errors_of (snd (process s)) = [] ->
  first_mismatch (the_timestamps s) 0 (the_speaker_labels s) = None.
Proof.
  intros H.
  destruct (first_mismatch (the_timestamps s) 0 (the_speaker_labels s))
    as [[j label]|] eqn:Hfm; [|reflexivity].
  rewrite (process_mismatch s j label Hfm) in H. discriminate.
Qed.

(** What a round without mismatch pushes: the grouping of the aligned pairs. *)
Lemma process_pushed_results s :
  first_mismatch (the_timestamps s) 0 (the_speaker_labels s) = None ->
  length (the_speaker_labels s) <= length (the_timestamps s) /\
  pushed_results (snd (process s))
  = fold_left (reduce_callback (isFinal s))
      (map Some (zip (the_timestamps s) (the_speaker_labels s))) [].
Proof.
  intros H. destruct (process_aligned s H) as [Hlen Hp]. split; [exact Hlen|].
  rewrite Hp. clear Hp. rewrite zip_with_Some. simpl.
  destruct (fold_left _ _ []) as [|r rs]; simpl; [reflexivity|].
  unfold pushed_results. simpl. rewrite app_nil_r. reflexivity.
Qed.

Lemma process_mismatch_pushes_nothing s j label :
  first_mismatch (the_timestamps s) 0 (the_speaker_labels s) = Some (j, label) ->
  pushed_results (snd (process s)) = [].
Proof. intros H. rewrite (process_mismatch s j label H). reflexivity. Qed.

Lemma mismatched_spec timestamp label :
  mismatched timestamp label = true <->
  (timestamp = None \/
   exists t, timestamp = Some t /\
     (strict_ne (FROM t) (Label.from label) = true \/
      strict_ne (TO t) (Label.to label) = true)).
Proof.
  destruct timestamp as [t|]; simpl.
  - rewrite orb_true_iff. split.
    + intros H. right. exists t. auto.
    + intros [H|(t' & Ht' & H)]; [discriminate|]. injection Ht' as <-. exact H.
  - split; auto.
Qed.

(** ** C1 *)

(** C1: when some label index has no matching timestamp (timestamp absent, or
    its [from] or [to] [!==] the label's), the round emits exactly one event,
    an error named MISMATCH built at the first such index [j]: it carries the
    label and the (possibly absent) timestamp at [j]; no message is pushed. *)
Theorem C1_first_mismatch_signalled_once (s : State) (i : nat) (label : Label.t) :
  the_speaker_labels s !! i = Some label ->
  (the_timestamps s !! i = None \/
   exists t, the_timestamps s !! i = Some t /\
     (strict_ne (FROM t) (Label.from label) = true \/
      strict_ne (TO t) (Label.to label) = true)) ->
  exists j label_j err,
    j <= i /\
    the_speaker_labels s !! j = Some label_j /\
    mismatched (the_timestamps s !! j) label_j = true /\
    (forall k l, k < j -> the_speaker_labels s !! k = Some l ->
       mismatched (the_timestamps s !! k) l = false) /\
    snd (process s) = [EmitError err] /\
    JsError.name err = "MISMATCH" /\
    JsError.speaker_label err = Some label_j /\
    JsError.timestamp err = the_timestamps s !! j /\
    messages_of (snd (process s)) = [].
Proof.
  intros Hlabel Hmis. apply mismatched_spec in Hmis.
  destruct (first_mismatch (the_timestamps s) 0 (the_speaker_labels s))
    as [[j label_j]|] eqn:Hfm.
  - destruct (first_mismatch_Some _ _ _ _ _ Hfm) as (_ & Hj & Hmj & Hbefore).
    rewrite Nat.sub_0_r in Hj, Hbefore.
    exists j, label_j, (mismatch_error s label_j (the_timestamps s !! j)).
    rewrite (process_mismatch s j label_j Hfm). simpl.
    repeat split; auto.
    destruct (le_lt_dec j i) as [Hle|Hlt]; [exact Hle|].
    pose proof (Hbefore i label Hlt Hlabel) as Hn. simpl in Hn.
    rewrite Hn in Hmis. discriminate.
  - pose proof (first_mismatch_None _ _ _ Hfm i label Hlabel) as Hn. simpl in Hn.
    rewrite Hn in Hmis. discriminate.
Qed.

(** ** C2 *)

(** C2: in a round that signals no error, the results pushed start exactly at
    the indices where the speaker changes ([0], or the label's speaker [!==]
    the previous label's); their timestamp lists, put end to end, are the
    paired timestamps in their original order; every transcript is its
    words each followed by one space; and every result bears the speaker of
    the label it starts at. *)
Theorem C2_segments_follow_speaker_changes (s : State) :
  errors_of (snd (process s)) = [] ->
  segment_starts 0 (pushed_results (snd (process s)))
  = List.filter (speaker_changes (map Label.speaker (the_speaker_labels s)))
      (seq 0 (length (the_speaker_labels s))) /\
  concat (map result_timestamps (pushed_results (snd (process s))))
  = take (length (the_speaker_labels s)) (the_timestamps s) /\
  Forall (fun r => result_transcript r = spaced_words (result_timestamps r) /\
                   result_timestamps r <> [])
         (pushed_results (snd (process s))) /\
  Forall2
    (fun r i =>
       map Label.speaker (the_speaker_labels s) !! i = Some (SpeakerResult.speaker r))
    (pushed_results (snd (process s)))
    (segment_starts 0 (pushed_results (snd (process s)))).
Proof.
  intros Hok. apply process_no_error in Hok.
  destruct (process_pushed_results s Hok) as [Hlen ->].
  destruct (reduce_invariant (isFinal s) (zip (the_timestamps s) (the_speaker_labels s)))
    as (H1 & H2 & H3 & _).
  pose proof (reduce_speakers (isFinal s) (zip (the_timestamps s) (the_speaker_labels s)))
    as H5.
  simpl in H5.
  rewrite zip_fst_take in H1 by exact Hlen.
  rewrite zip_snd_speakers, zip_length_labels in H2 by exact Hlen.
  rewrite zip_snd_speakers in H5 by exact Hlen.
  repeat split; auto.
  eapply Forall_impl; [exact H3|]. simpl. intros r (Ha & _ & Hb). auto.
Qed.

(** ** C3 *)

(** C3: in a round that signals no error, the timestamps of the results
    pushed are as many as the labels; every label index holds a timestamp
    whose [from] and [to] are [===] the label's; and the timestamps pushed are
    the first (label count) timestamps, so none at a later index is included. *)
Theorem C3_alignment (s : State) :
  errors_of (snd (process s)) = [] ->
  length (concat (map result_timestamps (pushed_results (snd (process s)))))
  = length (the_speaker_labels s) /\
  (forall i label, the_speaker_labels s !! i = Some label ->
     exists t, the_timestamps s !! i = Some t /\
       strict_eq (FROM t) (Label.from label) = true /\
       strict_eq (TO t) (Label.to label) = true) /\
  concat (map result_timestamps (pushed_results (snd (process s))))
  = take (length (the_speaker_labels s)) (the_timestamps s).
Proof.
  intros Hok. apply process_no_error in Hok.
  destruct (process_pushed_results s Hok) as [Hlen ->].
  destruct (reduce_invariant (isFinal s) (zip (the_timestamps s) (the_speaker_labels s)))
    as (H1 & _).
  rewrite zip_fst_take in H1 by exact Hlen.
  rewrite H1. split; [|split; [|reflexivity]].
  - rewrite length_take. lia.
  - intros i label Hi.
    pose proof (first_mismatch_None _ _ _ Hok i label Hi) as Hm. simpl in Hm.
    destruct (the_timestamps s !! i) as [t|]; [|discriminate].
    exists t. split; [reflexivity|]. simpl in Hm. unfold strict_ne in Hm.
    apply orb_false_iff in Hm as [Ha Hb].
    apply negb_false_iff in Ha, Hb. auto.
Qed.

(** ** Sorting and merging labels *)

Lemma sort_insert_perm {A} (cmp : A -> A -> Z) x l :
  Permutation (sort_insert cmp x l) (x :: l).
Proof.
  induction l as [|y l IH]; simpl; [reflexivity|].
  destruct (cmp x y <=? 0)%Z; [reflexivity|].
  rewrite IH. apply perm_swap.
Qed.

Lemma sort_perm {A} (cmp : A -> A -> Z) l : Permutation (sort cmp l) l.
Proof.
  induction l as [|x l IH]; simpl; [reflexivity|].
  unfold sort in *. simpl. rewrite sort_insert_perm, IH. reflexivity.
Qed.

Lemma filter_perm {A} (f : A -> bool) l l' :
  Permutation l l' -> Permutation (List.filter f l) (List.filter f l').
Proof.
  induction 1 as [|x l l' _ IH|x y l|l l' l'' _ IH1 _ IH2]; simpl.
  - reflexivity.
  - destruct (f x); [constructor|]; exact IH.
  - destruct (f x), (f y); try reflexivity. apply perm_swap.
  - etransitivity; eassumption.
Qed.

(** A list already in order is left as it is. *)
Lemma sort_sorted_id {A} (cmp : A -> A -> Z) l :
  Sorted (fun a b => (cmp a b <= 0)%Z) l -> sort cmp l = l.
Proof.
  induction 1 as [|x l Hs IH Hhd]; [reflexivity|].
  unfold sort in *. simpl. rewrite IH.
  destruct Hhd as [|y l Hxy]; simpl; [reflexivity|].
  apply Z.leb_le in Hxy. rewrite Hxy. reflexivity.
Qed.

Lemma sort_insert_sorted {A} (cmp : A -> A -> Z) (P : A -> Prop) x l :
  (forall a b, P a -> P b -> (cmp a b > 0)%Z -> (cmp b a <= 0)%Z) ->
  P x -> Forall P l ->
  Sorted (fun a b => (cmp a b <= 0)%Z) l ->
  Sorted (fun a b => (cmp a b <= 0)%Z) (sort_insert cmp x l).
Proof.
  intros Htot Px Pl Hs. induction Hs as [|y l Hs IH Hhd]; simpl.
  - repeat constructor.
  - apply Forall_cons in Pl as [Py Pl].
    destruct (cmp x y <=? 0)%Z eqn:Hxy.
    + apply Z.leb_le in Hxy. repeat constructor; assumption.
    + apply Z.leb_gt in Hxy. constructor; [exact (IH Pl)|].
      destruct Hhd as [|z l Hyz]; simpl.
      * constructor. apply Htot; auto. lia.
      * destruct (cmp x z <=? 0)%Z; constructor; [apply Htot; auto; lia | exact Hyz].
Qed.

Lemma sort_sorted {A} (cmp : A -> A -> Z) (P : A -> Prop) l :
  (forall a b, P a -> P b -> (cmp a b > 0)%Z -> (cmp b a <= 0)%Z) ->
  Forall P l -> Sorted (fun a b => (cmp a b <= 0)%Z) (sort cmp l).
Proof.
  intros Htot. induction 1 as [|x l Px Pl IH]; [constructor|].
  unfold sort in *. simpl.
  apply (sort_insert_sorted cmp P); auto.
  eapply Permutation_Forall; [|exact Pl]. symmetry. apply (sort_perm cmp).
Qed.

(** On labels whose spans are numbers the comparator is consistent: when it
    puts [b] before [a], it does not put [a] before [b]. *)
Lemma speakerLabelsSorter_total a b :
  proper_span a = true -> proper_span b = true ->
  (speakerLabelsSorter a b > 0)%Z -> (speakerLabelsSorter b a <= 0)%Z.
Proof.
  unfold proper_span, speakerLabelsSorter.
  intros [Haf Hat]%andb_true_iff [Hbf Hbt]%andb_true_iff.
  rewrite (strict_eq_sym (Label.from b)), (strict_eq_sym (Label.to b)).
  destruct (strict_eq (Label.from a) (Label.from b)) eqn:Hf.
  - destruct (strict_eq (Label.to a) (Label.to b)) eqn:Ht; [lia|].
    destruct (less_than (Label.to a) (Label.to b)) eqn:Hlt; [lia|].
    rewrite (less_than_total _ _ Hat Hbt Ht Hlt). lia.
  - destruct (less_than (Label.from a) (Label.from b)) eqn:Hlt; [lia|].
    rewrite (less_than_total _ _ Haf Hbf Hf Hlt). lia.
Qed.

(** The comparator's "not after" is transitive. *)
Lemma in_order_trans a b c : in_order a b -> in_order b c -> in_order a c.
Proof.
  unfold in_order, speakerLabelsSorter.
  destruct (strict_eq (Label.from a) (Label.from b)) eqn:Fab.
  - rewrite (strict_eq_subst _ _ (Label.from c) Fab),
            (less_than_subst_l _ _ (Label.from c) Fab).
    destruct (strict_eq (Label.from b) (Label.from c)) eqn:Fbc; [|intros _ H; exact H].
    destruct (strict_eq (Label.to a) (Label.to b)) eqn:Tab.
    + rewrite (strict_eq_subst _ _ (Label.to c) Tab),
              (less_than_subst_l _ _ (Label.to c) Tab).
      intros _ H; exact H.
    + destruct (less_than (Label.to a) (Label.to b)) eqn:Lab; [intros _|lia].
      destruct (strict_eq (Label.to b) (Label.to c)) eqn:Tbc.
      * intros _. rewrite (less_than_subst_r _ _ _ Tbc) in Lab.
        rewrite (less_than_not_eq _ _ Lab), Lab. lia.
      * destruct (less_than (Label.to b) (Label.to c)) eqn:Lbc; [intros _|lia].
        pose proof (less_than_trans _ _ _ Lab Lbc) as Lac.
        rewrite (less_than_not_eq _ _ Lac), Lac. lia.
  - destruct (less_than (Label.from a) (Label.from b)) eqn:Lab; [intros _|lia].
    destruct (strict_eq (Label.from b) (Label.from c)) eqn:Fbc.
    + intros _. rewrite (less_than_subst_r _ _ _ Fbc) in Lab.
      rewrite (less_than_not_eq _ _ Lab), Lab. lia.
    + destruct (less_than (Label.from b) (Label.from c)) eqn:Lbc; [intros _|lia].
      pose proof (less_than_trans _ _ _ Lab Lbc) as Lac.
      rewrite (less_than_not_eq _ _ Lac), Lac. lia.
Qed.

Lemma in_order_refl a : proper_span a = true -> in_order a a.
Proof.
  unfold proper_span, is_number, in_order, speakerLabelsSorter.
  intros [-> ->]%andb_true_iff. lia.
Qed.

(** In a collection kept in order, no entry comes after the last one. *)
Lemma sorted_last_latest labels label last_label :
  Forall (fun l => proper_span l = true) labels ->
  Sorted in_order labels ->
  last labels = Some last_label -> In label labels -> in_order label last_label.
Proof.
  intros Hp Hs Hlast Hin.
  apply Sorted_StronglySorted in Hs; [|exact in_order_trans].
  apply last_Some in Hlast as [front ->].
  apply in_app_or in Hin as [Hin|[<-|[]]].
  - clear Hp. induction front as [|x front IH]; [destruct Hin|].
    simpl in Hs. apply StronglySorted_inv in Hs as [Hs Hx].
    destruct Hin as [<-|Hin]; [|exact (IH Hs Hin)].
    rewrite List.Forall_forall in Hx. apply Hx, in_or_app. right. left. reflexivity.
  - apply in_order_refl. apply Forall_app in Hp as [_ Hp].
    rewrite Forall_singleton in Hp. exact Hp.
Qed.

Lemma pullAllWith_nil {A} (array : list A) comparator :
  pullAllWith array [] comparator = array.
Proof.
  unfold pullAllWith. induction array as [|a array IH]; simpl; [reflexivity|].
  f_equal. exact IH.
Qed.

Lemma merge_labels_perm old new_labels :
  Permutation (merge_labels old new_labels)
    (List.filter (fun o => negb (existsb (same_span o) new_labels)) old ++ new_labels).
Proof. unfold merge_labels. apply sort_perm. Qed.

Lemma merge_labels_proper old new_labels :
  Forall (fun l => proper_span l = true) old ->
  Forall (fun l => proper_span l = true) new_labels ->
  Forall (fun l => proper_span l = true) (merge_labels old new_labels).
Proof.
  intros Ho Hn. eapply Permutation_Forall.
  - symmetry. apply merge_labels_perm.
  - apply Forall_app. split; [|exact Hn].
    apply Forall_forall. intros x Hx. apply list_elem_of_In, List.filter_In in Hx as [Hx _].
    rewrite Forall_forall in Ho. apply Ho, list_elem_of_In, Hx.
Qed.

Lemma merge_labels_sorted old new_labels :
  Forall (fun l => proper_span l = true) old ->
  Forall (fun l => proper_span l = true) new_labels ->
  Sorted in_order (merge_labels old new_labels).
Proof.
  intros Ho Hn. unfold merge_labels.
  apply (sort_sorted speakerLabelsSorter (fun l => proper_span l = true)).
  - intros a b. apply speakerLabelsSorter_total.
  - apply Forall_app. split; [|exact Hn].
    apply Forall_forall. intros x Hx.
    apply list_elem_of_In, List.filter_In in Hx as [Hx _].
    rewrite Forall_forall in Ho. apply Ho, list_elem_of_In, Hx.
Qed.

Lemma merge_labels_nil labels :
  Sorted in_order labels -> merge_labels labels [] = labels.
Proof.
  intros Hs. unfold merge_labels. rewrite pullAllWith_nil, app_nil_r.
  apply sort_sorted_id. exact Hs.
Qed.

(** ** The store *)

Lemma evolves_refl s : well_formed s -> evolves s s.
Proof. intros H. repeat split; try apply H; reflexivity. Qed.

Lemma evolves_trans s1 s2 s3 : evolves s1 s2 -> evolves s2 s3 -> evolves s1 s3.
Proof.
  intros (_ & Hp1 & Hl1 & Hn1) (Hw & Hp2 & Hl2 & Hn2). repeat split; try apply Hw.
  - etransitivity; eassumption.
  - congruence.
  - congruence.
Qed.

(** An array allocated in [s] reads the same in a later state. *)
Lemma evolves_read_timestamps s s' l :
  evolves s s' -> l < length (timestamp_arrays (heap s)) ->
  read_timestamps (heap s') l = read_timestamps (heap s) l.
Proof.
  intros (_ & Hp & _) Hl. unfold read_timestamps.
  destruct (lookup_lt_is_Some_2 _ _ Hl) as [x Hx].
  rewrite Hx, (prefix_lookup_Some _ _ _ _ Hx Hp). reflexivity.
Qed.

Lemma concat_timestamps_spec s added :
  well_formed s ->
  the_timestamps (concat_timestamps s added) = the_timestamps s ++ added /\
  the_speaker_labels (concat_timestamps s added) = the_speaker_labels s /\
  evolves s (concat_timestamps s added).
Proof.
  intros [Ht Hl]. unfold concat_timestamps, the_timestamps, the_speaker_labels,
    read_timestamps, read_labels, evolves, well_formed. simpl.
  repeat split; auto.
  - rewrite lookup_app_r, Nat.sub_diag by lia. reflexivity.
  - rewrite length_app. simpl. lia.
  - apply prefix_app_r. reflexivity.
Qed.

Lemma handleSpeakerLabels_spec s data speaker_labels :
  well_formed s ->
  Data.speaker_labels data = Some speaker_labels ->
  the_speaker_labels (handleSpeakerLabels s data)
  = merge_labels (the_speaker_labels s) speaker_labels /\
  the_timestamps (handleSpeakerLabels s data) = the_timestamps s /\
  SpeakerStream.timestamps (this (handleSpeakerLabels s data))
  = SpeakerStream.timestamps (this s) /\
  timestamp_arrays (heap (handleSpeakerLabels s data)) = timestamp_arrays (heap s) /\
  evolves s (handleSpeakerLabels s data).
Proof.
  intros [Ht Hl] Hd. unfold handleSpeakerLabels. rewrite Hd.
  unfold the_timestamps, the_speaker_labels, read_timestamps, read_labels,
    evolves, well_formed. simpl.
  repeat split; auto.
  - rewrite list_lookup_insert_eq by exact Hl. reflexivity.
  - rewrite length_insert. exact Hl.
  - apply length_insert.
Qed.

Section StoreCollaborators.

Variable noTimestamps : Data.t -> bool.
Variable ERROR_NO_TIMESTAMPS : string.

Lemma handleResults_spec s data :
  well_formed s ->
  the_speaker_labels (fst (handleResults noTimestamps ERROR_NO_TIMESTAMPS s data))
  = the_speaker_labels s /\
  evolves s (fst (handleResults noTimestamps ERROR_NO_TIMESTAMPS s data)).
Proof.
  intros Hw. unfold handleResults.
  destruct (noTimestamps data); simpl; [split; [reflexivity | apply evolves_refl, Hw]|].
  destruct (Data.results data) as [results|]; simpl;
    [|split; [reflexivity | apply evolves_refl, Hw]].
  generalize (List.filter Result.final results). intros rs.
  assert (Hgen : forall s', evolves s s' -> the_speaker_labels s' = the_speaker_labels s ->
    let s'' := fold_left (fun s0 result => concat_timestamps s0
                 (Alternative.timestamps (Result.alternatives_0 result))) rs s' in
    the_speaker_labels s'' = the_speaker_labels s /\ evolves s s'').
  { induction rs as [|r rs IH]; intros s' Hev Hl; simpl; [auto|].
    destruct (concat_timestamps_spec s'
                (Alternative.timestamps (Result.alternatives_0 r))) as (_ & Hl' & Hev').
    { apply Hev. }
    apply IH.
    - eapply evolves_trans; eassumption.
    - congruence. }
  apply Hgen; [apply evolves_refl, Hw | reflexivity].
Qed.

(** What a message does to the label collection and to the store. *)
Lemma _transform_spec s data :
  well_formed s ->
  the_speaker_labels (fst (_transform noTimestamps ERROR_NO_TIMESTAMPS s data))
  = match Data.speaker_labels data with
    | Some speaker_labels => merge_labels (the_speaker_labels s) speaker_labels
    | None => the_speaker_labels s
    end /\
  evolves s (fst (_transform noTimestamps ERROR_NO_TIMESTAMPS s data)).
Proof.
  intros Hw. unfold _transform.
  assert (H1 : exists s1 evs1,
    match Data.results data with
    | Some _ => handleResults noTimestamps ERROR_NO_TIMESTAMPS s data
    | None => (s, [])
    end = (s1, evs1) /\ the_speaker_labels s1 = the_speaker_labels s /\ evolves s s1).
  { destruct (Data.results data).
    - destruct (handleResults_spec s data Hw) as [Ha Hb].
      destruct (handleResults noTimestamps ERROR_NO_TIMESTAMPS s data) as [s1 evs1].
      exists s1, evs1. simpl in *. auto.
    - exists s, []. repeat split; auto; apply evolves_refl, Hw. }
  destruct H1 as (s1 & evs1 & -> & Hl1 & Hev1).
  pose proof (process_state
    match Data.speaker_labels data with
    | Some _ => handleSpeakerLabels s1 data
    | None => s1
    end) as Hp.
  destruct (process _) as [s3 evs3]. simpl in *. subst s3.
  destruct (Data.speaker_labels data) as [speaker_labels|] eqn:Hd.
  - destruct (handleSpeakerLabels_spec s1 data speaker_labels) as (Ha & _ & _ & _ & Hev2);
      [apply Hev1 | exact Hd |].
    split; [congruence | eapply evolves_trans; eassumption].
  - auto.
Qed.

Lemma run_snoc s inputs data :
  run noTimestamps ERROR_NO_TIMESTAMPS s (inputs ++ [data])
  = let '(s1, evs1) := run noTimestamps ERROR_NO_TIMESTAMPS s inputs in
    let '(s2, evs2) := _transform noTimestamps ERROR_NO_TIMESTAMPS s1 data in
    (s2, evs1 ++ evs2).
Proof.
  unfold run. rewrite fold_left_app. simpl.
  destruct (fold_left _ inputs (s, [])) as [s1 evs1]. reflexivity.
Qed.

Lemma run_evolves s inputs :
  well_formed s -> evolves s (fst (run noTimestamps ERROR_NO_TIMESTAMPS s inputs)).
Proof.
  intros Hw. induction inputs as [|data inputs IH] using rev_ind.
  - apply evolves_refl, Hw.
  - rewrite run_snoc.
    destruct (run noTimestamps ERROR_NO_TIMESTAMPS s inputs) as [s1 evs1]. simpl in IH.
    destruct (_transform_spec s1 data) as [_ Hev]; [apply IH|].
    destruct (_transform noTimestamps ERROR_NO_TIMESTAMPS s1 data) as [s2 evs2].
    simpl in *. eapply evolves_trans; eassumption.
Qed.

(** Fed labels whose spans are numbers, the stream keeps its label
    collection in order. *)
Lemma run_sorted inputs :
  Forall proper_input inputs ->
  let s := fst (run noTimestamps ERROR_NO_TIMESTAMPS new_SpeakerStream inputs) in
  well_formed s /\
  Forall (fun l => proper_span l = true) (the_speaker_labels s) /\
  Sorted in_order (the_speaker_labels s).
Proof.
  induction inputs as [|data inputs IH] using rev_ind; intros Hin; simpl.
  - repeat split; auto; constructor.
  - apply Forall_app in Hin as [Hin Hd]. rewrite Forall_singleton in Hd.
    specialize (IH Hin). simpl in IH. destruct IH as (Hw & Hp & Hs).
    rewrite run_snoc.
    destruct (run noTimestamps ERROR_NO_TIMESTAMPS new_SpeakerStream inputs)
      as [s1 evs1]. simpl in *.
    destruct (_transform_spec s1 data Hw) as [Hl Hev].
    destruct (_transform noTimestamps ERROR_NO_TIMESTAMPS s1 data) as [s2 evs2].
    simpl in *. split; [apply Hev|]. rewrite Hl.
    unfold proper_input in Hd. destruct (Data.speaker_labels data); [|auto].
    split; [apply merge_labels_proper | apply merge_labels_sorted]; assumption.
Qed.

End StoreCollaborators.

(** ** Examples *)

(** Three aligned labels of one speaker, the last one final, give one final
    result with the three words. *)
Example one_speaker_round :
  snd (process (example_stream [word_yes; word_there; word_right]
         [example_label 0 0.5 1 false; example_label 0.5 1 1 false;
          example_label 1 1.5 1 true]))
  = [Push {| Message.results :=
               [SpeakerResult.mk 1
                  (Alternative.mk "Yes there right "
                     [word_yes; word_there; word_right]) true];
             Message.result_index := 0 |}].
Proof. reflexivity. Qed.

(** A change of speaker starts a second result; both carry the round's flag. *)
Example two_speakers_round :
  snd (process two_speakers)
  = [Push {| Message.results :=
               [SpeakerResult.mk 1
                  (Alternative.mk "Yes there " [word_yes; word_there]) true;
                SpeakerResult.mk 2 (Alternative.mk "right " [word_right]) true];
             Message.result_index := 0 |}].
Proof. reflexivity. Qed.

(** A label that does not match its timestamp gives one error and no message. *)
Example misaligned_round :
  snd (process misaligned)
  = [EmitError (mismatch_error misaligned (example_label 0.5 2 1 false) (Some word_there))].
Proof. reflexivity. Qed.

(** Five timestamps and three labels at the close of the stream. *)
Example unbalanced_flush :
  map JsError.message
    (errors_of (snd (_flush unbalanced)))
  = ["Mismatch between number of word timestamps (5) and number of speaker_labels (3) - some data may be lost."].
Proof. reflexivity. Qed.

(** ** C1, C2, C3: instances *)

Lemma C1_witness :
  exists j label_j err,
    j <= 1 /\
    the_speaker_labels misaligned !! j = Some label_j /\
    mismatched (the_timestamps misaligned !! j) label_j = true /\
    (forall k l, k < j -> the_speaker_labels misaligned !! k = Some l ->
       mismatched (the_timestamps misaligned !! k) l = false) /\
    snd (process misaligned) = [EmitError err] /\
    JsError.name err = "MISMATCH" /\
    JsError.speaker_label err = Some label_j /\
    JsError.timestamp err = the_timestamps misaligned !! j /\
    messages_of (snd (process misaligned)) = [].
Proof.
  apply (C1_first_mismatch_signalled_once misaligned 1 (example_label 0.5 2 1 false)).
  - reflexivity.
  - right. exists word_there. split; [reflexivity|]. right. reflexivity.
Defined.

Lemma C2_witness :
  segment_starts 0 (pushed_results (snd (process two_speakers)))
  = List.filter (speaker_changes (map Label.speaker (the_speaker_labels two_speakers)))
      (seq 0 (length (the_speaker_labels two_speakers))) /\
  concat (map result_timestamps (pushed_results (snd (process two_speakers))))
  = take (length (the_speaker_labels two_speakers)) (the_timestamps two_speakers) /\
  Forall (fun r => result_transcript r = spaced_words (result_timestamps r) /\
                   result_timestamps r <> [])
         (pushed_results (snd (process two_speakers))) /\
  Forall2
    (fun r i =>
       map Label.speaker (the_speaker_labels two_speakers) !! i
       = Some (SpeakerResult.speaker r))
    (pushed_results (snd (process two_speakers)))
    (segment_starts 0 (pushed_results (snd (process two_speakers)))).
Proof. apply (C2_segments_follow_speaker_changes two_speakers). reflexivity. Defined.

Lemma C3_witness :
  length (concat (map result_timestamps (pushed_results (snd (process two_speakers)))))
  = length (the_speaker_labels two_speakers) /\
  (forall i label, the_speaker_labels two_speakers !! i = Some label ->
     exists t, the_timestamps two_speakers !! i = Some t /\
       strict_eq (FROM t) (Label.from label) = true /\
       strict_eq (TO t) (Label.to label) = true) /\
  concat (map result_timestamps (pushed_results (snd (process two_speakers))))
  = take (length (the_speaker_labels two_speakers)) (the_timestamps two_speakers).
Proof. apply (C3_alignment two_speakers). reflexivity. Defined.

(** ** C7 *)

(** C7: at the close of the stream, equal counts emit nothing; unequal counts
    with no label at all emit one MISMATCH error saying that no speaker labels
    were found; unequal counts otherwise emit one MISMATCH error whose message
    gives both counts in decimal. *)
Theorem C7_flush_outcomes (s : State) :
  (length (the_timestamps s) = length (the_speaker_labels s) -> snd (_flush s) = []) /\
  (length (the_timestamps s) <> length (the_speaker_labels s) ->
   length (the_speaker_labels s) = 0 ->
   exists err, snd (_flush s) = [EmitError err] /\
     JsError.name err = "MISMATCH" /\
     JsError.message err
     = "No speaker_labels found. SpeakerStream requires speaker_labels to be enabled.") /\
  (length (the_timestamps s) <> length (the_speaker_labels s) ->
   length (the_speaker_labels s) <> 0 ->
   exists err, snd (_flush s) = [EmitError err] /\
     JsError.name err = "MISMATCH" /\
     JsError.message err
     = "Mismatch between number of word timestamps ("
         +:+ number_to_string (length (the_timestamps s))
         +:+ ") and number of speaker_labels ("
         +:+ number_to_string (length (the_speaker_labels s))
         +:+ ") - some data may be lost.") /\
  fst (_flush s) = s.
Proof.
  unfold _flush, flush_message.
  destruct (Nat.eqb_spec (length (the_timestamps s)) (length (the_speaker_labels s)))
    as [Heq|Hne]; simpl.
  - repeat split; auto; intros; contradiction.
  - split; [intros; contradiction|]. split; [|split; [|reflexivity]].
    + intros _ H0. eexists. split; [reflexivity|]. simpl. split; [reflexivity|].
      rewrite H0 in *. simpl.
      destruct (length (the_timestamps s)); [contradiction|reflexivity].
    + intros _ H0. eexists. split; [reflexivity|]. simpl. split; [reflexivity|].
      destruct (length (the_speaker_labels s)); [contradiction|].
      simpl. rewrite andb_false_r. reflexivity.
Qed.

(** ** C10 *)

(** C10: [process] returns the state it was given, so both collections are as
    before the round, also when it signals a mismatch; and the messages it
    pushes depend on the contents of the two collections only. *)
Theorem C10_process_frame (s : State) :
  fst (process s) = s /\
  the_timestamps (fst (process s)) = the_timestamps s /\
  the_speaker_labels (fst (process s)) = the_speaker_labels s /\
  (forall s',
     the_timestamps s' = the_timestamps s ->
     the_speaker_labels s' = the_speaker_labels s ->
     messages_of (snd (process s')) = messages_of (snd (process s))).
Proof.
  rewrite process_state. repeat split.
  intros s' Ht Hl.
  assert (Hf : isFinal s' = isFinal s) by (unfold isFinal; rewrite Hl; reflexivity).
  destruct (first_mismatch (the_timestamps s) 0 (the_speaker_labels s))
    as [[j label]|] eqn:Hfm.
  - rewrite (process_mismatch s j label Hfm).
    rewrite <- Ht, <- Hl in Hfm. rewrite (process_mismatch s' j label Hfm). reflexivity.
  - destruct (process_aligned s Hfm) as [_ ->].
    rewrite <- Ht, <- Hl in Hfm. destruct (process_aligned s' Hfm) as [_ ->].
    rewrite Hf, Ht, Hl. reflexivity.
Qed.

(** ** C6 *)

(** After a merge of [[label]] whose span is made of numbers, [label] is the
    only entry with that span. *)
Lemma merge_labels_single_span old label :
  same_span label label = true ->
  List.filter (fun l => same_span l label) (merge_labels old [label]) = [label].
Proof.
  intros Hself. apply Permutation_length_1_inv. symmetry.
  rewrite (filter_perm _ _ _ (merge_labels_perm old [label])).
  rewrite List.filter_app. simpl. rewrite Hself.
  replace (List.filter _ (List.filter _ old)) with (@nil Label.t); [reflexivity|].
  symmetry. induction old as [|o old IH]; simpl; [reflexivity|].
  rewrite orb_false_r. destruct (same_span o label) eqn:Ho; simpl; [exact IH|].
  rewrite Ho. exact IH.
Qed.

Lemma same_span_self_r a b : same_span a b = true -> same_span b b = true.
Proof.
  unfold same_span. intros [Hf Ht]%andb_true_iff.
  apply strict_eq_is_number_r in Hf, Ht. unfold is_number in *.
  rewrite Hf, Ht. reflexivity.
Qed.

(** C6: a merge leaves, up to the final sort, the old labels whose span is
    [===] (on both ends) to no new label's, followed by the new labels; and
    when [L1] and [L2] have the same span and different speakers, after
    merging [[L1]] and then [[L2]] the only label with that span is [L2]. *)
Theorem C6_merge_replaces_revised_spans (s : State) :
  well_formed s ->
  (forall new_labels,
     Permutation
       (the_speaker_labels (handleSpeakerLabels s (label_update new_labels)))
       (List.filter (fun old => negb (existsb (same_span old) new_labels))
          (the_speaker_labels s) ++ new_labels)) /\
  (forall L1 L2,
     same_span L1 L2 = true ->
     strict_ne (Label.speaker L1) (Label.speaker L2) = true ->
     List.filter (fun l => same_span l L2)
       (the_speaker_labels
          (handleSpeakerLabels (handleSpeakerLabels s (label_update [L1]))
             (label_update [L2])))
     = [L2]).
Proof.
  intros Hw. split.
  - intros new_labels.
    destruct (handleSpeakerLabels_spec s (label_update new_labels) new_labels Hw eq_refl)
      as (-> & _).
    apply merge_labels_perm.
  - intros L1 L2 Hspan _.
    destruct (handleSpeakerLabels_spec s (label_update [L1]) [L1] Hw eq_refl)
      as (_ & _ & _ & _ & Hev).
    destruct (handleSpeakerLabels_spec (handleSpeakerLabels s (label_update [L1]))
                (label_update [L2]) [L2]) as (-> & _); [apply Hev | reflexivity |].
    apply merge_labels_single_span. exact (same_span_self_r L1 L2 Hspan).
Qed.

Lemma C6_witness :
  (forall new_labels,
     Permutation
       (the_speaker_labels (handleSpeakerLabels two_speakers (label_update new_labels)))
       (List.filter (fun old => negb (existsb (same_span old) new_labels))
          (the_speaker_labels two_speakers) ++ new_labels)) /\
  (forall L1 L2,
     same_span L1 L2 = true ->
     strict_ne (Label.speaker L1) (Label.speaker L2) = true ->
     List.filter (fun l => same_span l L2)
       (the_speaker_labels
          (handleSpeakerLabels (handleSpeakerLabels two_speakers (label_update [L1]))
             (label_update [L2])))
     = [L2]).
Proof.
  apply (C6_merge_replaces_revised_spans two_speakers).
  split; simpl; lia.
Defined.

(** The speaker of the second word is revised from 1 to 2. *)
Example revision_replaces_label :
  the_speaker_labels
    (handleSpeakerLabels two_speakers (label_update [example_label 0.5 1 2 false]))
  = [example_label 0 0.5 1 false; example_label 0.5 1 2 false;
     example_label 1 1.5 2 true].
Proof. reflexivity. Qed.

Section Rounds.

Variable noTimestamps : Data.t -> bool.
Variable ERROR_NO_TIMESTAMPS : string.

(** ** C5 *)

(** C5: [isFinal()] holds exactly when the label collection has a last entry
    and that entry's [final] is true; every result of a pushed message
    carries the round's [isFinal()] as its [final]; and in a stream fed
    labels whose spans are numbers, no label of the collection comes after
    that last entry in the order of [speakerLabelsSorter]. *)
Theorem C5_finality (s : State) :
  (isFinal s = true <->
   exists label, last (the_speaker_labels s) = Some label /\ Label.final label = true) /\
  Forall (fun r => SpeakerResult.final r = isFinal s) (pushed_results (snd (process s))) /\
  (forall inputs,
     Forall proper_input inputs ->
     s = fst (run noTimestamps ERROR_NO_TIMESTAMPS new_SpeakerStream inputs) ->
     forall label last_label,
       last (the_speaker_labels s) = Some last_label ->
       In label (the_speaker_labels s) ->
       in_order label last_label).
Proof.
  split; [|split].
  - unfold isFinal. rewrite last_lookup.
    destruct (the_speaker_labels s) as [|l ls] eqn:Hl; simpl.
    + split; [discriminate|]. intros (label & H & _). discriminate.
    + replace (length ls - 0) with (length ls) by lia.
      destruct ((l :: ls) !! length ls) as [label|].
      * split; [eauto|]. intros (label' & H & Hf). injection H as <-. exact Hf.
      * split; [discriminate|]. intros (label' & H & _). discriminate.
  - destruct (first_mismatch (the_timestamps s) 0 (the_speaker_labels s))
      as [[j label]|] eqn:Hfm.
    + rewrite (process_mismatch_pushes_nothing s j label Hfm). constructor.
    + destruct (process_pushed_results s Hfm) as [Hlen ->].
      destruct (reduce_invariant (isFinal s)
                  (zip (the_timestamps s) (the_speaker_labels s)))
        as (_ & _ & H3 & _).
      eapply Forall_impl; [exact H3|]. simpl. intros r (_ & Hb & _). exact Hb.
  - intros inputs Hin -> label last_label Hlast Hlabel.
    destruct (run_sorted noTimestamps ERROR_NO_TIMESTAMPS inputs Hin) as (_ & Hp & Hs).
    exact (sorted_last_latest _ _ _ Hp Hs Hlast Hlabel).
Qed.

(** ** C9 *)

(** C9: in a stream that has been fed any messages whose labels have spans
    made of numbers, an empty update of the labels leaves the label
    collection as it is, entries and order, whether it is merged alone or
    goes through a whole round. *)
Theorem C9_empty_update_changes_nothing (inputs : list Data.t) :
  Forall proper_input inputs ->
  the_speaker_labels
    (handleSpeakerLabels
       (fst (run noTimestamps ERROR_NO_TIMESTAMPS new_SpeakerStream inputs))
       (label_update []))
  = the_speaker_labels
      (fst (run noTimestamps ERROR_NO_TIMESTAMPS new_SpeakerStream inputs)) /\
  the_speaker_labels
    (fst (_transform noTimestamps ERROR_NO_TIMESTAMPS
            (fst (run noTimestamps ERROR_NO_TIMESTAMPS new_SpeakerStream inputs))
            (label_update [])))
  = the_speaker_labels
      (fst (run noTimestamps ERROR_NO_TIMESTAMPS new_SpeakerStream inputs)).
Proof.
  intros Hin.
  destruct (run_sorted noTimestamps ERROR_NO_TIMESTAMPS inputs Hin) as (Hw & _ & Hs).
  split.
  - destruct (handleSpeakerLabels_spec _ (label_update []) [] Hw eq_refl) as (-> & _).
    apply merge_labels_nil, Hs.
  - destruct (_transform_spec noTimestamps ERROR_NO_TIMESTAMPS _ (label_update []) Hw)
      as [-> _].
    simpl. apply merge_labels_nil, Hs.
Qed.

(** ** C4 *)

(** C4 as amended: a message with a results array that the check reports
    gets the error of [handleResults] first, and [handleResults] does
    nothing else: no timestamp array is allocated and [this.timestamps] is
    the same, with the same contents.  The round goes on: the speaker labels
    of the message, if any, are merged and [process] runs. *)
Theorem C4_missing_timestamps (s : State) (data : Data.t) :
  is_Some (Data.results data) ->
  noTimestamps data = true ->
  handleResults noTimestamps ERROR_NO_TIMESTAMPS s data
  = (s, [EmitError (no_timestamps_error ERROR_NO_TIMESTAMPS)]) /\
  _transform noTimestamps ERROR_NO_TIMESTAMPS s data
  = (match Data.speaker_labels data with
     | Some _ => handleSpeakerLabels s data
     | None => s
     end,
     EmitError (no_timestamps_error ERROR_NO_TIMESTAMPS)
     :: snd (process match Data.speaker_labels data with
                     | Some _ => handleSpeakerLabels s data
                     | None => s
                     end)) /\
  timestamp_arrays (heap (fst (_transform noTimestamps ERROR_NO_TIMESTAMPS s data)))
  = timestamp_arrays (heap s) /\
  SpeakerStream.timestamps
    (this (fst (_transform noTimestamps ERROR_NO_TIMESTAMPS s data)))
  = SpeakerStream.timestamps (this s) /\
  the_timestamps (fst (_transform noTimestamps ERROR_NO_TIMESTAMPS s data))
  = the_timestamps s.
Proof.
  intros [results Hr] Hnt.
  assert (Hh : handleResults noTimestamps ERROR_NO_TIMESTAMPS s data
               = (s, [EmitError (no_timestamps_error ERROR_NO_TIMESTAMPS)])).
  { unfold handleResults. rewrite Hnt. reflexivity. }
  assert (Ht : _transform noTimestamps ERROR_NO_TIMESTAMPS s data
               = (match Data.speaker_labels data with
                  | Some _ => handleSpeakerLabels s data
                  | None => s
                  end,
                  EmitError (no_timestamps_error ERROR_NO_TIMESTAMPS)
                  :: snd (process match Data.speaker_labels data with
                                  | Some _ => handleSpeakerLabels s data
                                  | None => s
                                  end))).
  { unfold _transform. rewrite Hr, Hh.
    pose proof (process_state
      match Data.speaker_labels data with
      | Some _ => handleSpeakerLabels s data
      | None => s
      end) as Hp.
    destruct (process _) as [s3 evs3]. simpl in *. subst s3. reflexivity. }
  rewrite Ht. simpl. repeat split; auto;
    unfold the_timestamps, handleSpeakerLabels;
    destruct (Data.speaker_labels data); reflexivity.
Qed.

(** ** C8 *)

(** C8 as amended: an error of [process] or of [_flush] carries the two
    collections by reference.  Whatever messages come later, the timestamp
    array it carries keeps the contents it had when the error was signalled
    (later timestamps go to a new array), while the label array it carries
    is the stream's own and holds the stream's current labels. *)
Theorem C8_error_collections (s : State) (err : JsError.t) (later : list Data.t) :
  well_formed s ->
  In err (errors_of (snd (process s))) \/ In err (errors_of (snd (_flush s))) ->
  exists lt ll,
    JsError.name err = "MISMATCH" /\
    JsError.timestamps err = Some lt /\
    JsError.speaker_labels err = Some ll /\
    read_timestamps (heap s) lt = the_timestamps s /\
    read_labels (heap s) ll = the_speaker_labels s /\
    read_timestamps (heap (fst (run noTimestamps ERROR_NO_TIMESTAMPS s later))) lt
    = the_timestamps s /\
    read_labels (heap (fst (run noTimestamps ERROR_NO_TIMESTAMPS s later))) ll
    = the_speaker_labels (fst (run noTimestamps ERROR_NO_TIMESTAMPS s later)).
Proof.
  intros Hw Herr.
  exists (SpeakerStream.timestamps (this s)), (SpeakerStream.speaker_labels (this s)).
  assert (Hfields : JsError.name err = "MISMATCH" /\
            JsError.timestamps err = Some (SpeakerStream.timestamps (this s)) /\
            JsError.speaker_labels err = Some (SpeakerStream.speaker_labels (this s))).
  { destruct Herr as [Herr|Herr].
    - destruct (first_mismatch (the_timestamps s) 0 (the_speaker_labels s))
        as [[j label]|] eqn:Hfm.
      + rewrite (process_mismatch s j label Hfm) in Herr. simpl in Herr.
        destruct Herr as [<-|[]]. repeat split.
      + destruct (process_aligned s Hfm) as [_ Hp]. rewrite Hp in Herr. simpl in Herr.
        destruct (length _ =? 0)%nat; destruct Herr.
    - unfold _flush in Herr.
      destruct (negb _); simpl in Herr; [|destruct Herr].
      destruct Herr as [<-|[]]. repeat split. }
  destruct Hfields as (Hn & Ht & Hl).
  pose proof (run_evolves noTimestamps ERROR_NO_TIMESTAMPS s later Hw) as Hev.
  repeat split; auto.
  - rewrite (evolves_read_timestamps _ _ _ Hev); [reflexivity | apply Hw].
  - unfold the_speaker_labels. destruct Hev as (_ & _ & -> & _). reflexivity.
Qed.

End Rounds.

(** ** C4, C8, C9: instances *)

Lemma C9_witness :
  the_speaker_labels
    (handleSpeakerLabels
       (fst (run example_noTimestamps example_ERROR_NO_TIMESTAMPS new_SpeakerStream
               misaligned_inputs))
       (label_update []))
  = the_speaker_labels
      (fst (run example_noTimestamps example_ERROR_NO_TIMESTAMPS new_SpeakerStream
              misaligned_inputs)) /\
  the_speaker_labels
    (fst (_transform example_noTimestamps example_ERROR_NO_TIMESTAMPS
            (fst (run example_noTimestamps example_ERROR_NO_TIMESTAMPS new_SpeakerStream
                    misaligned_inputs))
            (label_update [])))
  = the_speaker_labels
      (fst (run example_noTimestamps example_ERROR_NO_TIMESTAMPS new_SpeakerStream
              misaligned_inputs)).
Proof.
  apply (C9_empty_update_changes_nothing example_noTimestamps
           example_ERROR_NO_TIMESTAMPS misaligned_inputs).
  repeat constructor.
Defined.

Lemma C4_witness :
  handleResults example_noTimestamps example_ERROR_NO_TIMESTAMPS new_SpeakerStream
    untimed_message
  = (new_SpeakerStream, [EmitError (no_timestamps_error example_ERROR_NO_TIMESTAMPS)]) /\
  _transform example_noTimestamps example_ERROR_NO_TIMESTAMPS new_SpeakerStream
    untimed_message
  = (match Data.speaker_labels untimed_message with
     | Some _ => handleSpeakerLabels new_SpeakerStream untimed_message
     | None => new_SpeakerStream
     end,
     EmitError (no_timestamps_error example_ERROR_NO_TIMESTAMPS)
     :: snd (process match Data.speaker_labels untimed_message with
                     | Some _ => handleSpeakerLabels new_SpeakerStream untimed_message
                     | None => new_SpeakerStream
                     end)) /\
  timestamp_arrays
    (heap (fst (_transform example_noTimestamps example_ERROR_NO_TIMESTAMPS
                  new_SpeakerStream untimed_message)))
  = timestamp_arrays (heap new_SpeakerStream) /\
  SpeakerStream.timestamps
    (this (fst (_transform example_noTimestamps example_ERROR_NO_TIMESTAMPS
                  new_SpeakerStream untimed_message)))
  = SpeakerStream.timestamps (this new_SpeakerStream) /\
  the_timestamps
    (fst (_transform example_noTimestamps example_ERROR_NO_TIMESTAMPS
            new_SpeakerStream untimed_message))
  = the_timestamps new_SpeakerStream.
Proof.
  apply (C4_missing_timestamps example_noTimestamps example_ERROR_NO_TIMESTAMPS
           new_SpeakerStream untimed_message).
  - eexists. reflexivity.
  - reflexivity.
Defined.

(** The claim that processing of the message stops fails on
    [untimed_message]: after the error of [handleResults] the label of the
    message is merged and [process] runs, here signalling a mismatch. *)
Lemma C4_processing_goes_on :
  is_Some (Data.results untimed_message) /\
  example_noTimestamps untimed_message = true /\
  the_speaker_labels new_SpeakerStream = [] /\
  the_speaker_labels
    (fst (_transform example_noTimestamps example_ERROR_NO_TIMESTAMPS
            new_SpeakerStream untimed_message))
  = [example_label 0 0.5 1 true] /\
  map JsError.name
    (errors_of (snd (_transform example_noTimestamps example_ERROR_NO_TIMESTAMPS
                       new_SpeakerStream untimed_message)))
  = ["NO_TIMESTAMPS"; "MISMATCH"] /\
  _transform example_noTimestamps example_ERROR_NO_TIMESTAMPS new_SpeakerStream
    untimed_message
  <> (new_SpeakerStream,
      [EmitError (no_timestamps_error example_ERROR_NO_TIMESTAMPS)]).
Proof.
  split; [eexists; reflexivity|]. repeat split; try reflexivity.
  intros H. apply (f_equal (fun r => length (snd r))) in H. discriminate H.
Qed.

Lemma C8_witness :
  exists lt ll,
    JsError.name
      (mismatch_error misaligned (example_label 0.5 2 1 false) (Some word_there))
    = "MISMATCH" /\
    JsError.timestamps
      (mismatch_error misaligned (example_label 0.5 2 1 false) (Some word_there))
    = Some lt /\
    JsError.speaker_labels
      (mismatch_error misaligned (example_label 0.5 2 1 false) (Some word_there))
    = Some ll /\
    read_timestamps (heap misaligned) lt = the_timestamps misaligned /\
    read_labels (heap misaligned) ll = the_speaker_labels misaligned /\
    read_timestamps
      (heap (fst (run example_noTimestamps example_ERROR_NO_TIMESTAMPS misaligned
                    [late_label]))) lt
    = the_timestamps misaligned /\
    read_labels
      (heap (fst (run example_noTimestamps example_ERROR_NO_TIMESTAMPS misaligned
                    [late_label]))) ll
    = the_speaker_labels
        (fst (run example_noTimestamps example_ERROR_NO_TIMESTAMPS misaligned
                [late_label])).
Proof.
  apply (C8_error_collections example_noTimestamps example_ERROR_NO_TIMESTAMPS
           misaligned
           (mismatch_error misaligned (example_label 0.5 2 1 false) (Some word_there))
           [late_label]).
  - split; simpl; lia.
  - left. simpl. left. reflexivity.
Defined.

(** The claim that the collections attached to an error are copies fails on
    the labels: the error signalled when [misaligned_inputs] have been read
    carries the label array of the stream, and what that array holds changes
    when [late_label] is merged. *)
Lemma C8_labels_are_not_a_copy :
  map JsError.speaker_labels
    (errors_of (snd (run example_noTimestamps example_ERROR_NO_TIMESTAMPS
                       new_SpeakerStream misaligned_inputs)))
  = [Some 0] /\
  read_labels
    (heap (fst (run example_noTimestamps example_ERROR_NO_TIMESTAMPS
                  new_SpeakerStream misaligned_inputs))) 0
  = [example_label 0 0.5 1 false; example_label 0.5 2 1 false] /\
  read_labels
    (heap (fst (run example_noTimestamps example_ERROR_NO_TIMESTAMPS
                  new_SpeakerStream (misaligned_inputs ++ [late_label])))) 0
  = [example_label 0 0.5 1 false; example_label 0.5 1 1 true;
     example_label 0.5 2 1 false] /\
  read_labels
    (heap (fst (run example_noTimestamps example_ERROR_NO_TIMESTAMPS
                  new_SpeakerStream (misaligned_inputs ++ [late_label])))) 0
  <> read_labels
       (heap (fst (run example_noTimestamps example_ERROR_NO_TIMESTAMPS
                     new_SpeakerStream misaligned_inputs))) 0.
Proof.
  repeat split; try reflexivity.
  intros H. apply (f_equal length) in H. discriminate H.
Qed.

(** ** C5, C7, C10: instances *)

Lemma C5_witness :
  in_order (example_label 0 0.5 1 false) (example_label 0.5 2 1 false).
Proof.
  apply (proj2 (proj2 (C5_finality example_noTimestamps example_ERROR_NO_TIMESTAMPS
                         (fst (run example_noTimestamps example_ERROR_NO_TIMESTAMPS
                                 new_SpeakerStream misaligned_inputs))))
           misaligned_inputs).
  - repeat constructor.
  - reflexivity.
  - reflexivity.
  - simpl. left. reflexivity.
Defined.

Lemma C7_witness :
  exists err, snd (_flush unbalanced) = [EmitError err] /\
    JsError.name err = "MISMATCH" /\
    JsError.message err
    = "Mismatch between number of word timestamps ("
        +:+ number_to_string (length (the_timestamps unbalanced))
        +:+ ") and number of speaker_labels ("
        +:+ number_to_string (length (the_speaker_labels unbalanced))
        +:+ ") - some data may be lost.".
Proof.
  apply (proj1 (proj2 (proj2 (C7_flush_outcomes unbalanced)))); simpl; lia.
Defined.

Lemma C10_witness :
  messages_of
    (snd (process (fst (run example_noTimestamps example_ERROR_NO_TIMESTAMPS
                          new_SpeakerStream two_speakers_inputs))))
  = messages_of (snd (process two_speakers)).
Proof.
  apply (proj2 (proj2 (proj2 (C10_process_frame two_speakers)))); reflexivity.
Defined.

(** The two states of [C10_witness] hold the same collections at different
    places of the store. *)
Example same_contents_other_store :
  fst (run example_noTimestamps example_ERROR_NO_TIMESTAMPS new_SpeakerStream
         two_speakers_inputs)
  <> two_speakers /\
  the_timestamps (fst (run example_noTimestamps example_ERROR_NO_TIMESTAMPS
                         new_SpeakerStream two_speakers_inputs))
  = the_timestamps two_speakers.
Proof.
  split; [|reflexivity].
  intros H. apply (f_equal (fun s => SpeakerStream.timestamps (this s))) in H.
  discriminate H.
Qed.

(** * Further properties *)

(** ** Accumulating timestamps *)

Lemma fold_concat_timestamps s (added : list (list Timestamp)) :
  well_formed s ->
  well_formed (fold_left concat_timestamps added s) /\
  the_timestamps (fold_left concat_timestamps added s)
  = the_timestamps s ++ concat added /\
  the_speaker_labels (fold_left concat_timestamps added s) = the_speaker_labels s.
Proof.
  revert s. induction added as [|a added IH]; intros s Hw; simpl.
  - rewrite app_nil_r. auto.
  - destruct (concat_timestamps_spec s a Hw) as (Ht & Hl & Hev).
    destruct (IH (concat_timestamps s a)) as (Hw' & Ht' & Hl'); [apply Hev|].
    rewrite Ht', Hl', Ht, Hl, app_assoc. auto.
Qed.

Lemma fold_left_map {A B C} (f : A -> B -> A) (g : C -> B) (l : list C) (a : A) :
  fold_left (fun acc x => f acc (g x)) l a = fold_left f (map g l) a.
Proof. revert a. induction l as [|x l IH]; intros a; simpl; auto. Qed.

Section Accumulation.

Variable noTimestamps : Data.t -> bool.
Variable ERROR_NO_TIMESTAMPS : string.

Lemma handleResults_accepts s data results :
  well_formed s ->
  noTimestamps data = false ->
  Data.results data = Some results ->
  the_timestamps (fst (handleResults noTimestamps ERROR_NO_TIMESTAMPS s data))
  = the_timestamps s ++ final_timestamps results /\
  snd (handleResults noTimestamps ERROR_NO_TIMESTAMPS s data) = [] /\
  the_speaker_labels (fst (handleResults noTimestamps ERROR_NO_TIMESTAMPS s data))
  = the_speaker_labels s.
Proof.
  intros Hw Hnt Hr. unfold handleResults. rewrite Hnt, Hr. simpl.
  rewrite (fold_left_map concat_timestamps
             (fun r => Alternative.timestamps (Result.alternatives_0 r))).
  destruct (fold_concat_timestamps s
              (map (fun r => Alternative.timestamps (Result.alternatives_0 r))
                   (List.filter Result.final results)) Hw) as (_ & Ht & Hl).
  auto.
Qed.

(** X1: a message that the check lets through adds to the timestamp
    collection the timestamps of its final results, in order, and nothing of
    its interim results; [handleResults] then emits nothing and leaves the
    labels alone. *)
Theorem X1_handleResults_keeps_final_results (s : State) (data : Data.t)
    (results : list Result.t) :
  well_formed s ->
  noTimestamps data = false ->
  Data.results data = Some results ->
  the_timestamps (fst (handleResults noTimestamps ERROR_NO_TIMESTAMPS s data))
  = the_timestamps s ++ final_timestamps results /\
  snd (handleResults noTimestamps ERROR_NO_TIMESTAMPS s data) = [] /\
  the_speaker_labels (fst (handleResults noTimestamps ERROR_NO_TIMESTAMPS s data))
  = the_speaker_labels s.
Proof. exact (handleResults_accepts s data results). Qed.

Lemma _transform_timestamps s data :
  well_formed s ->
  the_timestamps (fst (_transform noTimestamps ERROR_NO_TIMESTAMPS s data))
  = the_timestamps s ++ accepted_timestamps noTimestamps data.
Proof.
  intros Hw. unfold _transform, accepted_timestamps.
  assert (H1 : exists s1 evs1,
    match Data.results data with
    | Some _ => handleResults noTimestamps ERROR_NO_TIMESTAMPS s data
    | None => (s, [])
    end = (s1, evs1) /\ well_formed s1 /\
    the_timestamps s1
    = the_timestamps s ++
      match Data.results data with
      | Some results => if noTimestamps data then [] else final_timestamps results
      | None => []
      end).
  { destruct (Data.results data) as [results|] eqn:Hr.
    - destruct (handleResults_spec noTimestamps ERROR_NO_TIMESTAMPS s data Hw) as [_ Hev].
      destruct (noTimestamps data) eqn:Hnt.
      + unfold handleResults. rewrite Hnt. exists s. eexists. rewrite app_nil_r. auto.
      + destruct (handleResults_accepts s data results Hw Hnt Hr)
          as (Ht & _ & _).
        destruct (handleResults noTimestamps ERROR_NO_TIMESTAMPS s data) as [s1 evs1].
        exists s1, evs1. simpl in *. repeat split; auto; apply Hev.
    - exists s, []. rewrite app_nil_r. auto. }
  destruct H1 as (s1 & evs1 & -> & Hw1 & Ht1).
  pose proof (process_state
    match Data.speaker_labels data with
    | Some _ => handleSpeakerLabels s1 data
    | None => s1
    end) as Hp.
  destruct (process _) as [s3 evs3]. simpl in *. subst s3.
  destruct (Data.speaker_labels data) as [speaker_labels|] eqn:Hd; [|exact Ht1].
  destruct (handleSpeakerLabels_spec s1 data speaker_labels Hw1 Hd) as (_ & -> & _).
  exact Ht1.
Qed.

End Accumulation.

(** ** What a round emits *)

(** The converse of [first_mismatch_None]. *)
Lemma first_mismatch_None_intro ts i labels :
  (forall k label, labels !! k = Some label -> mismatched (ts !! (i + k)) label = false) ->
  first_mismatch ts i labels = None.
Proof.
  revert i. induction labels as [|l rest IH]; intros i H; simpl; [reflexivity|].
  pose proof (H 0 l eq_refl) as H0. rewrite Nat.add_0_r in H0. rewrite H0.
  apply IH. intros k label Hk.
  replace (S i + k) with (i + S k) by lia. apply (H (S k) label Hk).
Qed.

(** A round emits nothing, or one error, or one message. *)
Lemma process_one_event s :
  snd (process s) = [] \/
  (exists err, snd (process s) = [EmitError err]) \/
  (exists results, results <> [] /\
     snd (process s)
     = [Push {| Message.results := results; Message.result_index := 0 |}]).
Proof.
  destruct (first_mismatch (the_timestamps s) 0 (the_speaker_labels s))
    as [[j label]|] eqn:Hfm.
  - right. left. rewrite (process_mismatch s j label Hfm). eauto.
  - destruct (process_aligned s Hfm) as [_ ->]. simpl.
    destruct (fold_left _ _ []) as [|r rs]; simpl; [left; reflexivity|].
    right. right. exists (r :: rs). split; [discriminate | reflexivity].
Qed.

Lemma process_events_length s : length (snd (process s)) <= 1.
Proof.
  destruct (process_one_event s) as [->|[[err ->]|(results & _ & ->)]]; simpl; lia.
Qed.

(** X2: a round emits at most one event.  Without labels it emits nothing,
    whatever the timestamps; with at least one label and no mismatch it
    pushes exactly one message, whose [result_index] is 0 and whose results
    are not empty. *)
Theorem X2_process_outcomes (s : State) :
  length (snd (process s)) <= 1 /\
  (the_speaker_labels s = [] -> snd (process s) = []) /\
  (the_speaker_labels s <> [] ->
   errors_of (snd (process s)) = [] ->
   exists results,
     results <> [] /\
     snd (process s)
     = [Push {| Message.results := results; Message.result_index := 0 |}]).
Proof.
  split; [|split].
  - apply process_events_length.
  - intros Hl. unfold process. rewrite Hl. reflexivity.
  - intros Hne Hok. apply process_no_error in Hok.
    destruct (process_pushed_results s Hok) as [Hlen Hres].
    destruct (reduce_invariant (isFinal s) (zip (the_timestamps s) (the_speaker_labels s)))
      as (H1 & _).
    destruct (process_one_event s) as [Hp|[[err Hp]|(results & Hr & Hp)]].
    + exfalso. rewrite Hp in Hres. simpl in Hres. rewrite <- Hres in H1. simpl in H1.
      apply (f_equal length) in H1. rewrite length_map, zip_length_labels in H1 by exact Hlen.
      destruct (the_speaker_labels s); [contradiction|discriminate].
    + exfalso. destruct (process_aligned s Hok) as [_ Hq]. rewrite Hq in Hp.
      destruct (length _ =? 0)%nat; discriminate.
    + exists results. auto.
Qed.

Lemma X2_witness :
  exists results,
    results <> [] /\
    snd (process two_speakers)
    = [Push {| Message.results := results; Message.result_index := 0 |}].
Proof.
  apply (proj2 (proj2 (X2_process_outcomes two_speakers))).
  - discriminate.
  - reflexivity.
Defined.

(** X3: labels that run ahead of the timestamps are an error: when the
    stream holds more labels than timestamps, the round emits one MISMATCH
    error and pushes nothing.  (Timestamps ahead of the labels are not.) *)
Theorem X3_labels_ahead_of_timestamps (s : State) :
  length (the_timestamps s) < length (the_speaker_labels s) ->
  exists err,
    snd (process s) = [EmitError err] /\
    JsError.name err = "MISMATCH" /\
    is_Some (JsError.speaker_label err).
Proof.
  intros Hlt.
  destruct (first_mismatch (the_timestamps s) 0 (the_speaker_labels s))
    as [[j label]|] eqn:Hfm.
  - rewrite (process_mismatch s j label Hfm). eexists. repeat split. simpl. eauto.
  - exfalso. destruct (lookup_lt_is_Some_2 _ _ Hlt) as [label Hlabel].
    pose proof (first_mismatch_None _ _ _ Hfm _ label Hlabel) as Hm. simpl in Hm.
    rewrite (lookup_ge_None_2 (the_timestamps s) (length (the_timestamps s))) in Hm by lia.
    discriminate.
Qed.

Lemma X3_witness :
  exists err,
    snd (process (example_stream [word_yes]
                    [example_label 0 0.5 1 false; example_label 0.5 1 1 false]))
    = [EmitError err] /\
    JsError.name err = "MISMATCH" /\
    is_Some (JsError.speaker_label err).
Proof.
  apply (X3_labels_ahead_of_timestamps
           (example_stream [word_yes]
              [example_label 0 0.5 1 false; example_label 0.5 1 1 false])).
  simpl. lia.
Defined.

(** ** Whole runs *)

Lemma zip_with_app_longer {A B C} (f : A -> B -> C) (l more : list A) (k : list B) :
  length k <= length l -> zip_with f (l ++ more) k = zip_with f l k.
Proof.
  revert k. induction l as [|a l IH]; intros [|b k] Hlen; simpl in *;
    try reflexivity; try lia.
  - destruct more; reflexivity.
  - rewrite IH by lia. reflexivity.
Qed.

(** Once the labels are aligned, more timestamps change nothing of the round. *)
Lemma process_more_timestamps s s' more :
  the_speaker_labels s' = the_speaker_labels s ->
  the_timestamps s' = the_timestamps s ++ more ->
  errors_of (snd (process s)) = [] ->
  snd (process s') = snd (process s).
Proof.
  intros Hl Ht Hok. apply process_no_error in Hok.
  assert (Hf : isFinal s' = isFinal s) by (unfold isFinal; rewrite Hl; reflexivity).
  destruct (process_aligned s Hok) as [Hlen ->].
  assert (Hok' : first_mismatch (the_timestamps s') 0 (the_speaker_labels s') = None).
  { apply first_mismatch_None_intro. intros k label Hk. rewrite Hl in Hk. rewrite Ht.
    pose proof (first_mismatch_None _ _ _ Hok k label Hk) as Hm. simpl in *.
    rewrite lookup_app_l; [exact Hm|].
    apply lookup_lt_Some in Hk. lia. }
  destruct (process_aligned s' Hok') as [_ ->].
  rewrite Hf, Hl, Ht, zip_with_app_longer by exact Hlen. reflexivity.
Qed.

Section Runs.

Variable noTimestamps : Data.t -> bool.
Variable ERROR_NO_TIMESTAMPS : string.

Lemma run_timestamps s inputs :
  well_formed s ->
  the_timestamps (fst (run noTimestamps ERROR_NO_TIMESTAMPS s inputs))
  = the_timestamps s ++ concat (map (accepted_timestamps noTimestamps) inputs).
Proof.
  intros Hw. induction inputs as [|data inputs IH] using rev_ind.
  - simpl. rewrite app_nil_r. reflexivity.
  - pose proof (run_evolves noTimestamps ERROR_NO_TIMESTAMPS s inputs Hw) as Hev.
    rewrite run_snoc.
    destruct (run noTimestamps ERROR_NO_TIMESTAMPS s inputs) as [s1 evs1]. simpl in *.
    pose proof (_transform_timestamps noTimestamps ERROR_NO_TIMESTAMPS s1 data) as Ht.
    destruct (_transform noTimestamps ERROR_NO_TIMESTAMPS s1 data) as [s2 evs2].
    simpl in *. rewrite Ht by apply Hev.
    rewrite IH, map_app, concat_app. simpl. rewrite app_nil_r, app_assoc. reflexivity.
Qed.

(** X4: the timestamp collection only grows at its end: after any messages
    it is what it was, followed by the timestamps of the final results of
    the messages that the check let through, message after message; labels
    and errors never remove or reorder a timestamp. *)
Theorem X4_timestamps_append_only (s : State) (inputs : list Data.t) :
  well_formed s ->
  the_timestamps (fst (run noTimestamps ERROR_NO_TIMESTAMPS s inputs))
  = the_timestamps s ++ concat (map (accepted_timestamps noTimestamps) inputs).
Proof. exact (run_timestamps s inputs). Qed.

Lemma run_labels s inputs :
  well_formed s ->
  the_speaker_labels (fst (run noTimestamps ERROR_NO_TIMESTAMPS s inputs))
  = fold_left merge_labels (label_batches inputs) (the_speaker_labels s).
Proof.
  intros Hw. induction inputs as [|data inputs IH] using rev_ind; [reflexivity|].
  pose proof (run_evolves noTimestamps ERROR_NO_TIMESTAMPS s inputs Hw) as Hev.
  rewrite run_snoc.
  destruct (run noTimestamps ERROR_NO_TIMESTAMPS s inputs) as [s1 evs1]. simpl in *.
  destruct (_transform_spec noTimestamps ERROR_NO_TIMESTAMPS s1 data) as [Hl _];
    [apply Hev|].
  destruct (_transform noTimestamps ERROR_NO_TIMESTAMPS s1 data) as [s2 evs2].
  simpl in *. rewrite Hl, IH. unfold label_batches. rewrite omap_app, fold_left_app.
  simpl. destruct (Data.speaker_labels data); reflexivity.
Qed.

(** X5: the label collection depends on the label arrays received and on
    nothing else: after any messages it is the successive merge of those
    arrays, whatever results the messages carried and whatever the check of
    the results said. *)
Theorem X5_labels_follow_label_updates (s : State) (inputs : list Data.t) :
  well_formed s ->
  the_speaker_labels (fst (run noTimestamps ERROR_NO_TIMESTAMPS s inputs))
  = fold_left merge_labels (label_batches inputs) (the_speaker_labels s).
Proof. exact (run_labels s inputs). Qed.

Lemma handleResults_events s data :
  messages_of (snd (handleResults noTimestamps ERROR_NO_TIMESTAMPS s data)) = [] /\
  length (snd (handleResults noTimestamps ERROR_NO_TIMESTAMPS s data)) <= 1.
Proof.
  unfold handleResults. destruct (noTimestamps data); simpl; [auto|].
  destruct (Data.results data); simpl; auto.
Qed.

Lemma messages_of_app evs evs' :
  messages_of (evs ++ evs') = messages_of evs ++ messages_of evs'.
Proof. apply omap_app. Qed.

Lemma messages_of_length evs : length (messages_of evs) <= length evs.
Proof.
  induction evs as [|[err|msg] evs IH]; simpl; [lia| |];
    unfold messages_of in *; simpl; lia.
Qed.

Lemma _transform_events s data :
  length (messages_of (snd (_transform noTimestamps ERROR_NO_TIMESTAMPS s data))) <= 1 /\
  length (snd (_transform noTimestamps ERROR_NO_TIMESTAMPS s data)) <= 2.
Proof.
  unfold _transform.
  assert (H1 : exists s1 evs1,
    match Data.results data with
    | Some _ => handleResults noTimestamps ERROR_NO_TIMESTAMPS s data
    | None => (s, [])
    end = (s1, evs1) /\ messages_of evs1 = [] /\ length evs1 <= 1).
  { destruct (Data.results data).
    - destruct (handleResults_events s data) as [Ha Hb].
      destruct (handleResults noTimestamps ERROR_NO_TIMESTAMPS s data) as [s1 evs1].
      exists s1, evs1. auto.
    - exists s, []. simpl. auto. }
  destruct H1 as (s1 & evs1 & -> & Hm & Hn).
  pose proof (process_events_length
    match Data.speaker_labels data with
    | Some _ => handleSpeakerLabels s1 data
    | None => s1
    end) as Hp.
  pose proof (messages_of_length (snd (process
    match Data.speaker_labels data with
    | Some _ => handleSpeakerLabels s1 data
    | None => s1
    end))) as Hq.
  destruct (process _) as [s3 evs3]. simpl in *.
  rewrite messages_of_app, Hm, !length_app. simpl. lia.
Qed.

(** X6: a message makes the stream push at most one message and emit at most
    two events (the error of [handleResults] and one event of the round); so
    a run pushes at most as many messages as it was written. *)
Theorem X6_at_most_one_message_per_input (s : State) (inputs : list Data.t) :
  length (messages_of (snd (run noTimestamps ERROR_NO_TIMESTAMPS s inputs)))
  <= length inputs /\
  length (snd (run noTimestamps ERROR_NO_TIMESTAMPS s inputs)) <= 2 * length inputs.
Proof.
  induction inputs as [|data inputs IH] using rev_ind; [simpl; lia|].
  rewrite run_snoc.
  destruct (run noTimestamps ERROR_NO_TIMESTAMPS s inputs) as [s1 evs1]. simpl in IH.
  destruct (_transform_events s1 data) as [Hm Hn].
  destruct (_transform noTimestamps ERROR_NO_TIMESTAMPS s1 data) as [s2 evs2].
  simpl in *. rewrite messages_of_app, !length_app. simpl. lia.
Qed.

(** X7: once the labels are aligned with the timestamps, a message without
    speaker labels changes nothing of what is pushed: whatever results it
    carries, accepted or not, the round pushes the same messages as a round
    on the state before. *)
Theorem X7_results_only_message_repeats (s : State) (data : Data.t) :
  well_formed s ->
  Data.speaker_labels data = None ->
  errors_of (snd (process s)) = [] ->
  messages_of (snd (_transform noTimestamps ERROR_NO_TIMESTAMPS s data))
  = messages_of (snd (process s)).
Proof.
  intros Hw Hd Hok.
  pose proof (_transform_timestamps noTimestamps ERROR_NO_TIMESTAMPS s data Hw) as Ht.
  destruct (_transform_spec noTimestamps ERROR_NO_TIMESTAMPS s data Hw) as [Hl _].
  rewrite Hd in Hl. revert Ht Hl. unfold _transform. rewrite Hd.
  assert (H1 : exists s1 evs1,
    match Data.results data with
    | Some _ => handleResults noTimestamps ERROR_NO_TIMESTAMPS s data
    | None => (s, [])
    end = (s1, evs1) /\ messages_of evs1 = []).
  { destruct (Data.results data).
    - destruct (handleResults_events s data) as [Ha _].
      destruct (handleResults noTimestamps ERROR_NO_TIMESTAMPS s data) as [s1 evs1].
      exists s1, evs1. auto.
    - exists s, []. auto. }
  destruct H1 as (s1 & evs1 & -> & Hm).
  pose proof (process_state s1) as Hp.
  destruct (process s1) as [s3 evs3] eqn:Hq. simpl in *. subst s3.
  intros Ht Hl. rewrite messages_of_app, Hm. simpl.
  replace evs3 with (snd (process s1)) by (rewrite Hq; reflexivity).
  rewrite (process_more_timestamps s s1 _ Hl Ht Hok). reflexivity.
Qed.

End Runs.

(** ** The results of a round *)

Lemma spaced_words_app ts ts' :
  spaced_words (ts ++ ts') = spaced_words ts +:+ spaced_words ts'.
Proof.
  induction ts as [|t ts IH]; [reflexivity|].
  change (WORD t +:+ " " +:+ spaced_words (ts ++ ts')
          = (WORD t +:+ " " +:+ spaced_words ts) +:+ spaced_words ts').
  rewrite IH, !string_append_assoc. reflexivity.
Qed.

Lemma joined_transcripts_spaced results :
  Forall (fun r => result_transcript r = spaced_words (result_timestamps r)) results ->
  joined_transcripts results = spaced_words (concat (map result_timestamps results)).
Proof.
  induction 1 as [|r results Hr _ IH]; [reflexivity|].
  simpl. rewrite spaced_words_app, <- IH, Hr. reflexivity.
Qed.

(** X8: no word is lost or moved by the grouping: in a round that signals no
    error, the transcripts of the results pushed, put end to end, are the
    words of the paired timestamps in their order, each followed by one
    space. *)
Theorem X8_transcripts_hold_every_word (s : State) :
  errors_of (snd (process s)) = [] ->
  joined_transcripts (pushed_results (snd (process s)))
  = spaced_words (take (length (the_speaker_labels s)) (the_timestamps s)).
Proof.
  intros Hok. apply process_no_error in Hok.
  destruct (process_pushed_results s Hok) as [Hlen ->].
  destruct (reduce_invariant (isFinal s) (zip (the_timestamps s) (the_speaker_labels s)))
    as (H1 & _ & H3 & _).
  rewrite zip_fst_take in H1 by exact Hlen.
  rewrite <- H1. apply joined_transcripts_spaced.
  eapply Forall_impl; [exact H3|]. simpl. intros r (Ha & _). exact Ha.
Qed.

Lemma X8_witness :
  joined_transcripts (pushed_results (snd (process two_speakers)))
  = spaced_words (take (length (the_speaker_labels two_speakers))
                       (the_timestamps two_speakers)).
Proof. apply (X8_transcripts_hold_every_word two_speakers). reflexivity. Defined.

(** Consecutive results of the reduction have speakers that are [!==]. *)
Lemma reduce_adjacent_speakers final (pairs : list (option (Timestamp * Label.t))) :
  forall k r1 r2,
    fold_left (reduce_callback final) pairs [] !! k = Some r1 ->
    fold_left (reduce_callback final) pairs [] !! S k = Some r2 ->
    strict_ne (SpeakerResult.speaker r1) (SpeakerResult.speaker r2) = true.
Proof.
  induction pairs as [|pr pairs IH] using rev_ind; intros k r1 r2; [discriminate|].
  rewrite fold_left_app. simpl.
  set (rs := fold_left (reduce_callback final) pairs []) in *.
  destruct pr as [[t label]|]; simpl; [|apply IH].
  assert (Hnew : forall cur, last rs = Some cur ->
            strict_ne (SpeakerResult.speaker cur) (Label.speaker label) = true ->
            (rs ++ [new_result final t label]) !! k = Some r1 ->
            (rs ++ [new_result final t label]) !! S k = Some r2 ->
            strict_ne (SpeakerResult.speaker r1) (SpeakerResult.speaker r2) = true).
  { intros cur Hcur Hne H1 H2.
    destruct (decide (S k < length rs)) as [Hlt|Hge].
    - rewrite lookup_app_l in H1, H2 by lia. exact (IH k r1 r2 H1 H2).
    - assert (Hk : S k = length rs).
      { apply lookup_lt_Some in H2. rewrite length_app in H2. simpl in H2. lia. }
      rewrite lookup_app_l in H1 by lia.
      rewrite lookup_app_r, Hk, Nat.sub_diag in H2 by lia. simpl in H2.
      injection H2 as <-. simpl.
      rewrite last_lookup in Hcur.
      replace (pred (length rs)) with k in Hcur by lia.
      rewrite H1 in Hcur. injection Hcur as ->. exact Hne. }
  destruct (last rs) as [cur|] eqn:Hlast.
  - destruct (strict_ne (SpeakerResult.speaker cur) (Label.speaker label)) eqn:Hne.
    + apply (Hnew cur eq_refl Hne).
    + clear Hnew. apply last_Some in Hlast as [rs0 Hrs0]. rewrite Hrs0 in *.
      rewrite insert_app_r_alt by (rewrite length_app; simpl; lia).
      replace (length (rs0 ++ [cur]) - 1 - length rs0) with 0
        by (rewrite length_app; simpl; lia).
      simpl. intros H1 H2.
      destruct (decide (S k < length rs0)) as [Hlt|Hge].
      * rewrite lookup_app_l in H1, H2 by lia.
        apply (IH k r1 r2); rewrite lookup_app_l by lia; assumption.
      * assert (Hk : S k = length rs0).
        { apply lookup_lt_Some in H2. rewrite length_app in H2. simpl in H2. lia. }
        rewrite lookup_app_l in H1 by lia.
        rewrite lookup_app_r, Hk, Nat.sub_diag in H2 by lia. simpl in H2.
        injection H2 as <-. simpl.
        apply (IH k r1 cur).
        -- rewrite lookup_app_l by lia. exact H1.
        -- rewrite lookup_app_r, Hk, Nat.sub_diag by lia. reflexivity.
  - apply last_None in Hlast. rewrite Hlast. simpl. intros _ H2. discriminate.
Qed.

(** X9: the results of a message are maximal runs of one speaker: any two
    consecutive results of a pushed message have speakers that are [!==]. *)
Theorem X9_consecutive_results_change_speaker (s : State) (k : nat)
    (r1 r2 : SpeakerResult.t) :
  pushed_results (snd (process s)) !! k = Some r1 ->
  pushed_results (snd (process s)) !! S k = Some r2 ->
  strict_ne (SpeakerResult.speaker r1) (SpeakerResult.speaker r2) = true.
Proof.
  destruct (first_mismatch (the_timestamps s) 0 (the_speaker_labels s))
    as [[j label]|] eqn:Hfm.
  - rewrite (process_mismatch_pushes_nothing s j label Hfm). discriminate.
  - destruct (process_pushed_results s Hfm) as [_ ->].
    apply reduce_adjacent_speakers.
Qed.

Lemma X9_witness :
  strict_ne
    (SpeakerResult.speaker
       (SpeakerResult.mk 1 (Alternative.mk "Yes there " [word_yes; word_there]) true))
    (SpeakerResult.speaker
       (SpeakerResult.mk 2 (Alternative.mk "right " [word_right]) true))
  = true.
Proof.
  apply (X9_consecutive_results_change_speaker two_speakers 0); reflexivity.
Defined.

(** ** The comparator and the order of the labels *)

Lemma less_than_asym x y : less_than x y = true -> less_than y x = false.
Proof.
  unfold less_than. rewrite !FloatAxioms.ltb_spec. unfold SFltb.
  rewrite (SFcompare_antisym (Prim2SF x) (Prim2SF y)).
  destruct (SFcompare (Prim2SF x) (Prim2SF y)) as [[]|]; simpl; try discriminate;
    reflexivity.
Qed.

Lemma SFcompare_self x : x = S754_nan \/ SFcompare x x = Some Eq.
Proof.
  destruct x as [s|s| |s m e]; simpl; auto; right.
  - destruct s; reflexivity.
  - change (Pos.compare_cont Eq m m) with (Pos.compare m m).
    rewrite Z.compare_refl, Pos.compare_refl. destruct s; reflexivity.
Qed.

(** A NaN is neither [===] nor [<] nor [>] anything. *)
Lemma not_a_number x y :
  is_number x = false ->
  strict_eq x y = false /\ strict_eq y x = false /\
  less_than x y = false /\ less_than y x = false.
Proof.
  unfold is_number, strict_eq, less_than.
  rewrite !FloatAxioms.eqb_spec, !FloatAxioms.ltb_spec. unfold SFeqb, SFltb.
  destruct (SFcompare_self (Prim2SF x)) as [->| ->]; [|discriminate].
  intros _. simpl. destruct (Prim2SF y); auto.
Qed.

Lemma speakerLabelsSorter_zero a b :
  speakerLabelsSorter a b = 0%Z <-> same_span a b = true.
Proof.
  unfold speakerLabelsSorter, same_span.
  destruct (strict_eq (Label.from a) (Label.from b)); simpl.
  - destruct (strict_eq (Label.to a) (Label.to b)); [tauto|].
    destruct (less_than (Label.to a) (Label.to b)); split; discriminate.
  - destruct (less_than (Label.from a) (Label.from b)); split; discriminate.
Qed.

Lemma speakerLabelsSorter_antisym a b :
  proper_span a = true -> proper_span b = true ->
  speakerLabelsSorter b a = (- speakerLabelsSorter a b)%Z.
Proof.
  unfold proper_span, speakerLabelsSorter.
  intros [Haf Hat]%andb_true_iff [Hbf Hbt]%andb_true_iff.
  rewrite (strict_eq_sym (Label.from b)), (strict_eq_sym (Label.to b)).
  destruct (strict_eq (Label.from a) (Label.from b)) eqn:Hf.
  - destruct (strict_eq (Label.to a) (Label.to b)) eqn:Ht; [reflexivity|].
    destruct (less_than (Label.to a) (Label.to b)) eqn:Hlt.
    + rewrite (less_than_asym _ _ Hlt). reflexivity.
    + rewrite (less_than_total _ _ Hat Hbt Ht Hlt). reflexivity.
  - destruct (less_than (Label.from a) (Label.from b)) eqn:Hlt.
    + rewrite (less_than_asym _ _ Hlt). reflexivity.
    + rewrite (less_than_total _ _ Haf Hbf Hf Hlt). reflexivity.
Qed.

(** X10: [speakerLabelsSorter] answers -1, 0 or 1; it answers 0 exactly on
    the pairs that the comparator of [pullAllWith] matches, so the ties of
    the sort are the revisions of the merge; and on spans that are numbers
    swapping the arguments negates the answer. *)
Theorem X10_sorter_is_a_comparator (a b : Label.t) :
  (speakerLabelsSorter a b = (-1)%Z \/ speakerLabelsSorter a b = 0%Z \/
   speakerLabelsSorter a b = 1%Z) /\
  (speakerLabelsSorter a b = 0%Z <-> same_span a b = true) /\
  (proper_span a = true -> proper_span b = true ->
   speakerLabelsSorter b a = (- speakerLabelsSorter a b)%Z).
Proof.
  split; [|split].
  - unfold speakerLabelsSorter.
    destruct (strict_eq (Label.from a) (Label.from b));
      [destruct (strict_eq (Label.to a) (Label.to b)); [auto|];
       destruct (less_than (Label.to a) (Label.to b)); auto|].
    destruct (less_than (Label.from a) (Label.from b)); auto.
  - apply speakerLabelsSorter_zero.
  - apply speakerLabelsSorter_antisym.
Qed.

Lemma X10_witness :
  speakerLabelsSorter (example_label 0.5 1 1 false) (example_label 0 0.5 1 false)
  = (- speakerLabelsSorter (example_label 0 0.5 1 false) (example_label 0.5 1 1 false))%Z.
Proof.
  apply (proj2 (proj2 (X10_sorter_is_a_comparator
                         (example_label 0 0.5 1 false) (example_label 0.5 1 1 false))));
    reflexivity.
Defined.

Lemma same_span_sym a b : same_span a b = same_span b a.
Proof.
  unfold same_span.
  rewrite (strict_eq_sym (Label.from a)), (strict_eq_sym (Label.to a)). reflexivity.
Qed.

Lemma improper_span_matches_nothing a b :
  proper_span a = false -> same_span a b = false.
Proof.
  unfold proper_span, same_span. intros H. apply andb_false_iff in H as [H|H].
  - destruct (not_a_number _ (Label.from b) H) as (-> & _). reflexivity.
  - destruct (not_a_number _ (Label.to b) H) as (-> & _). apply andb_false_r.
Qed.

(** X11: a label whose span has a NaN end is outside the order and beyond
    revision.  When its [from] is NaN, [speakerLabelsSorter] answers 1 against
    any label, on either side; and once it is in the collection no later
    array of labels removes it, not even one that repeats it. *)
Theorem X11_NaN_spans (s : State) (label : Label.t) (new_labels : list Label.t) :
  well_formed s ->
  In label (the_speaker_labels s) ->
  proper_span label = false ->
  In label (the_speaker_labels (handleSpeakerLabels s (label_update new_labels))) /\
  (is_number (Label.from label) = false ->
   forall other,
     speakerLabelsSorter label other = 1%Z /\ speakerLabelsSorter other label = 1%Z).
Proof.
  intros Hw Hin Hnan. split.
  - destruct (handleSpeakerLabels_spec s (label_update new_labels) new_labels Hw eq_refl)
      as (-> & _).
    apply (Permutation_in label (Permutation_sym (merge_labels_perm _ _))).
    apply in_or_app. left. apply List.filter_In. split; [exact Hin|].
    apply negb_true_iff. apply not_true_iff_false. intros Hex.
    apply existsb_exists in Hex as (other & _ & Hother).
    rewrite (improper_span_matches_nothing label other Hnan) in Hother. discriminate.
  - intros Hfrom other. unfold speakerLabelsSorter.
    destruct (not_a_number _ (Label.from other) Hfrom) as (-> & -> & -> & ->). auto.
Qed.

Lemma X11_witness :
  In (example_label nan 1 1 false)
     (the_speaker_labels
        (handleSpeakerLabels (example_stream [] [example_label nan 1 1 false])
           (label_update [example_label nan 1 1 false]))) /\
  (is_number (Label.from (example_label nan 1 1 false)) = false ->
   forall other,
     speakerLabelsSorter (example_label nan 1 1 false) other = 1%Z /\
     speakerLabelsSorter other (example_label nan 1 1 false) = 1%Z).
Proof.
  apply (X11_NaN_spans (example_stream [] [example_label nan 1 1 false])).
  - split; simpl; lia.
  - left. reflexivity.
  - reflexivity.
Defined.

(** A label with a NaN span that is sent again is then held twice. *)
Example NaN_label_accumulates :
  length (the_speaker_labels
            (handleSpeakerLabels (example_stream [] [example_label nan 1 1 false])
               (label_update [example_label nan 1 1 false])))
  = 2.
Proof. reflexivity. Qed.

(** ** Merges of labels with one label per span *)

Lemma StronglySorted_lookup {A} (R : A -> A -> Prop) (l : list A) i j a b :
  StronglySorted R l -> i < j -> l !! i = Some a -> l !! j = Some b -> R a b.
Proof.
  intros Hs. revert i j. induction Hs as [|x l Hs IH Hx]; intros i j Hij Hi Hj.
  - discriminate.
  - destruct j as [|j]; [lia|]. simpl in Hj. destruct i as [|i]; simpl in Hi.
    + injection Hi as <-. rewrite List.Forall_forall in Hx.
      apply Hx. apply list_elem_of_In. eapply list_elem_of_lookup_2. exact Hj.
    + apply (IH i j); [lia | exact Hi | exact Hj].
Qed.

Lemma kept_labels_proper old new_labels :
  Forall (fun l => proper_span l = true) old ->
  Forall (fun l => proper_span l = true) new_labels ->
  Forall (fun l => proper_span l = true)
    (pullAllWith old new_labels same_span ++ new_labels).
Proof.
  intros Ho Hn. apply Forall_app. split; [|exact Hn].
  apply Forall_forall. intros x Hx.
  apply list_elem_of_In, List.filter_In in Hx as [Hx _].
  rewrite Forall_forall in Ho. apply Ho, list_elem_of_In, Hx.
Qed.

Lemma merge_labels_strongly_sorted old new_labels :
  Forall (fun l => proper_span l = true) old ->
  Forall (fun l => proper_span l = true) new_labels ->
  StronglySorted in_order (merge_labels old new_labels).
Proof.
  intros Ho Hn. apply Sorted.Sorted_StronglySorted; [exact in_order_trans|].
  apply merge_labels_sorted; assumption.
Qed.

(** X12: [handleSpeakerLabels] leaves the whole collection in the order of
    [speakerLabelsSorter], whatever the order of the old and of the new
    labels: with spans that are numbers, no label of the collection is before
    one that the comparator puts before it. *)
Theorem X12_labels_are_kept_in_order (s : State) (new_labels : list Label.t)
    (i j : nat) (a b : Label.t) :
  well_formed s ->
  Forall (fun l => proper_span l = true) (the_speaker_labels s) ->
  Forall (fun l => proper_span l = true) new_labels ->
  i < j ->
  the_speaker_labels (handleSpeakerLabels s (label_update new_labels)) !! i = Some a ->
  the_speaker_labels (handleSpeakerLabels s (label_update new_labels)) !! j = Some b ->
  in_order a b.
Proof.
  intros Hw Ho Hn.
  destruct (handleSpeakerLabels_spec s (label_update new_labels) new_labels Hw eq_refl)
    as (-> & _).
  apply StronglySorted_lookup. apply merge_labels_strongly_sorted; assumption.
Qed.

Lemma X12_witness :
  in_order (example_label 0 0.5 1 false) (example_label 1 1.5 2 true).
Proof.
  apply (X12_labels_are_kept_in_order
           (example_stream [] [example_label 1 1.5 2 true; example_label 0.5 1 1 false])
           [example_label 0 0.5 1 false] 0 2).
  - split; simpl; lia.
  - repeat constructor.
  - repeat constructor.
  - lia.
  - reflexivity.
  - reflexivity.
Defined.

Lemma distinct_spans_perm l l' :
  Permutation l l' -> distinct_spans l -> distinct_spans l'.
Proof.
  unfold distinct_spans.
  induction 1 as [|x l l' Hp IH|x y l|l l' l'' _ IH1 _ IH2]; intros H.
  - constructor.
  - inversion H as [|? ? Hx Hl]; subst. constructor; [|exact (IH Hl)].
    eapply Permutation_Forall; eassumption.
  - inversion H as [|? ? Hy Hl]; subst. inversion Hl as [|? ? Hx Hl']; subst.
    inversion Hy as [|? ? Hyx Hy']; subst.
    constructor; [constructor; [rewrite same_span_sym; exact Hyx | exact Hx]|].
    constructor; assumption.
  - auto.
Qed.

Lemma distinct_spans_filter (f : Label.t -> bool) l :
  distinct_spans l -> distinct_spans (List.filter f l).
Proof.
  unfold distinct_spans. induction 1 as [|x l Hx Hl IH]; simpl; [constructor|].
  destruct (f x); [|exact IH]. constructor; [|exact IH].
  rewrite List.Forall_forall in *. intros y Hy. apply Hx.
  apply List.filter_In in Hy as [Hy _]. exact Hy.
Qed.

Lemma distinct_spans_app l l' :
  distinct_spans l -> distinct_spans l' ->
  (forall a b, In a l -> In b l' -> same_span a b = false) ->
  distinct_spans (l ++ l').
Proof.
  unfold distinct_spans. induction 1 as [|x l Hx Hl IH]; intros Hl' Hcross; simpl.
  - exact Hl'.
  - constructor.
    + apply Forall_app. split; [exact Hx|].
      apply Forall_forall. intros y Hy. apply Hcross; [left; reflexivity|].
      apply list_elem_of_In. exact Hy.
    + apply IH; [exact Hl'|]. intros a b Ha Hb. apply Hcross; [right; exact Ha | exact Hb].
Qed.

Lemma pulled_matches_nothing old new_labels a b :
  In a (pullAllWith old new_labels same_span) -> In b new_labels -> same_span a b = false.
Proof.
  intros Ha Hb. apply List.filter_In in Ha as [_ Ha]. apply negb_true_iff in Ha.
  apply not_true_iff_false. intros Hab. apply not_true_iff_false in Ha. apply Ha.
  apply existsb_exists. exists b. auto.
Qed.

Lemma merge_labels_distinct old new_labels :
  distinct_spans old -> distinct_spans new_labels ->
  distinct_spans (merge_labels old new_labels).
Proof.
  intros Ho Hn.
  apply (distinct_spans_perm _ _ (Permutation_sym (merge_labels_perm old new_labels))).
  apply distinct_spans_app; [apply distinct_spans_filter, Ho | exact Hn |].
  intros a b. apply pulled_matches_nothing.
Qed.

Lemma fold_merge_distinct batches labels :
  distinct_spans labels -> Forall distinct_spans batches ->
  distinct_spans (fold_left merge_labels batches labels).
Proof.
  intros Hl Hb. revert labels Hl.
  induction Hb as [|b batches Hb _ IH]; intros labels Hl; simpl; [exact Hl|].
  apply IH, merge_labels_distinct; assumption.
Qed.

Section OneLabelPerSpan.

Variable noTimestamps : Data.t -> bool.
Variable ERROR_NO_TIMESTAMPS : string.

(** X13: the stream keeps at most one label per span as long as no array
    of labels it receives holds two labels of one span: whatever messages
    follow, no two entries of the collection have the same span. *)
Theorem X13_one_label_per_span (s : State) (inputs : list Data.t) :
  well_formed s ->
  distinct_spans (the_speaker_labels s) ->
  Forall distinct_spans (label_batches inputs) ->
  distinct_spans
    (the_speaker_labels (fst (run noTimestamps ERROR_NO_TIMESTAMPS s inputs))).
Proof.
  intros Hw Hl Hb. rewrite (run_labels noTimestamps ERROR_NO_TIMESTAMPS s inputs Hw).
  apply fold_merge_distinct; assumption.
Qed.

End OneLabelPerSpan.

Lemma X13_witness :
  distinct_spans
    (the_speaker_labels
       (fst (run example_noTimestamps example_ERROR_NO_TIMESTAMPS new_SpeakerStream
               (two_speakers_inputs ++ [late_label])))).
Proof.
  apply (X13_one_label_per_span example_noTimestamps example_ERROR_NO_TIMESTAMPS
           new_SpeakerStream (two_speakers_inputs ++ [late_label])).
  - split; simpl; lia.
  - constructor.
  - repeat constructor.
Defined.

(** Two orderings of the same labels, one label per span, are the same list. *)
Lemma sorted_labels_unique l l' :
  Forall (fun x => proper_span x = true) l ->
  distinct_spans l ->
  StronglySorted in_order l -> StronglySorted in_order l' ->
  Permutation l l' -> l = l'.
Proof.
  intros Hp Hd Hs Hs' Hperm.
  apply (StronglySorted_unique_strong in_order); auto.
  intros x1 x2 Hx1 Hx2 H12 H21.
  apply list_elem_of_In in Hx1, Hx2.
  apply (Permutation_in _ (Permutation_sym Hperm)) in Hx2.
  assert (Hsame : same_span x1 x2 = true).
  { apply speakerLabelsSorter_zero. unfold in_order in *.
    rewrite List.Forall_forall in Hp.
    rewrite (speakerLabelsSorter_antisym x1 x2 (Hp _ Hx1) (Hp _ Hx2)) in H21. lia. }
  destruct (ForallOrdPairs_In Hd _ _ Hx1 Hx2) as [Heq|[Hne|Hne]]; [exact Heq| |].
  - simpl in Hne. rewrite Hne in Hsame. discriminate.
  - simpl in Hne. rewrite same_span_sym, Hne in Hsame. discriminate.
Qed.

Lemma filter_none {A} (f : A -> bool) l :
  (forall x, In x l -> f x = false) -> List.filter f l = [].
Proof.
  induction l as [|x l IH]; intros H; simpl; [reflexivity|].
  rewrite (H x) by (left; reflexivity). apply IH. intros y Hy. apply H. right. exact Hy.
Qed.

Lemma filter_all {A} (f : A -> bool) l :
  (forall x, In x l -> f x = true) -> List.filter f l = l.
Proof.
  induction l as [|x l IH]; intros H; simpl; [reflexivity|].
  rewrite (H x) by (left; reflexivity). f_equal. apply IH. intros y Hy. apply H.
  right. exact Hy.
Qed.

Lemma proper_span_self a : proper_span a = true -> same_span a a = true.
Proof. intros H. exact H. Qed.

(** What is left of a merge of [new_labels] when [new_labels] is pulled again. *)
Lemma pull_again old new_labels :
  Forall (fun l => proper_span l = true) new_labels ->
  Permutation
    (pullAllWith (merge_labels old new_labels) new_labels same_span)
    (pullAllWith old new_labels same_span).
Proof.
  intros Hn. unfold pullAllWith at 1.
  rewrite (filter_perm _ _ _ (merge_labels_perm old new_labels)).
  rewrite List.filter_app.
  rewrite (filter_none _ new_labels).
  - rewrite app_nil_r, filter_all; [reflexivity|].
    intros x Hx. apply List.filter_In in Hx as [_ Hx]. exact Hx.
  - intros x Hx. apply negb_false_iff, existsb_exists. exists x. split; [exact Hx|].
    apply proper_span_self. rewrite List.Forall_forall in Hn. apply Hn, Hx.
Qed.

(** X14: labels may be repeated: with spans that are numbers and one label
    per span, merging the same array of labels a second time leaves the
    collection exactly as the first merge left it. *)
Theorem X14_repeated_labels_change_nothing (s : State) (new_labels : list Label.t) :
  well_formed s ->
  Forall (fun l => proper_span l = true) (the_speaker_labels s) ->
  Forall (fun l => proper_span l = true) new_labels ->
  distinct_spans (the_speaker_labels s) ->
  distinct_spans new_labels ->
  the_speaker_labels
    (handleSpeakerLabels (handleSpeakerLabels s (label_update new_labels))
       (label_update new_labels))
  = the_speaker_labels (handleSpeakerLabels s (label_update new_labels)).
Proof.
  intros Hw Ho Hn Hdo Hdn.
  destruct (handleSpeakerLabels_spec s (label_update new_labels) new_labels Hw eq_refl)
    as (Hl1 & _ & _ & _ & Hev).
  destruct (handleSpeakerLabels_spec (handleSpeakerLabels s (label_update new_labels))
              (label_update new_labels) new_labels) as (-> & _);
    [apply Hev | reflexivity |].
  rewrite Hl1. symmetry. apply sorted_labels_unique.
  - apply merge_labels_proper; assumption.
  - apply merge_labels_distinct; assumption.
  - apply merge_labels_strongly_sorted; assumption.
  - apply merge_labels_strongly_sorted; [apply merge_labels_proper|]; assumption.
  - etransitivity; [apply merge_labels_perm|]. symmetry.
    etransitivity; [apply merge_labels_perm|].
    apply Permutation_app_tail. apply (pull_again _ _ Hn).
Qed.

Lemma X14_witness :
  the_speaker_labels
    (handleSpeakerLabels
       (handleSpeakerLabels two_speakers (label_update [example_label 0.5 1 2 false]))
       (label_update [example_label 0.5 1 2 false]))
  = the_speaker_labels
      (handleSpeakerLabels two_speakers (label_update [example_label 0.5 1 2 false])).
Proof.
  apply (X14_repeated_labels_change_nothing two_speakers [example_label 0.5 1 2 false]).
  - split; simpl; lia.
  - repeat constructor.
  - repeat constructor.
  - repeat constructor.
  - repeat constructor.
Defined.

Lemma pull_twice (old first second : list Label.t) :
  pullAllWith (pullAllWith old first same_span) second same_span
  = pullAllWith old (first ++ second) same_span.
Proof.
  unfold pullAllWith. induction old as [|o old IH]; simpl; [reflexivity|].
  rewrite existsb_app, negb_orb.
  destruct (existsb (same_span o) first); simpl; [exact IH|].
  destruct (existsb (same_span o) second); simpl; [exact IH|].
  f_equal. exact IH.
Qed.

Lemma pull_disjoint (first second : list Label.t) :
  (forall a b, In a first -> In b second -> same_span a b = false) ->
  pullAllWith first second same_span = first.
Proof.
  intros Hcross. apply filter_all. intros a Ha. apply negb_true_iff.
  apply not_true_iff_false. intros Hex. apply existsb_exists in Hex as (b & Hb & Hab).
  rewrite (Hcross a b Ha Hb) in Hab. discriminate.
Qed.

(** X15: an array of labels may arrive in two parts: with spans that are
    numbers and one label per span, merging a first array and then a second
    one that revises none of the first gives the same collection as merging
    the two at once. *)
Theorem X15_labels_in_two_parts (s : State) (first second : list Label.t) :
  well_formed s ->
  Forall (fun l => proper_span l = true) (the_speaker_labels s) ->
  Forall (fun l => proper_span l = true) first ->
  Forall (fun l => proper_span l = true) second ->
  distinct_spans (the_speaker_labels s) ->
  distinct_spans first ->
  distinct_spans second ->
  (forall a b, In a first -> In b second -> same_span a b = false) ->
  the_speaker_labels
    (handleSpeakerLabels (handleSpeakerLabels s (label_update first))
       (label_update second))
  = the_speaker_labels (handleSpeakerLabels s (label_update (first ++ second))).
Proof.
  intros Hw Ho H1 H2 Hdo Hd1 Hd2 Hcross.
  destruct (handleSpeakerLabels_spec s (label_update first) first Hw eq_refl)
    as (Hl1 & _ & _ & _ & Hev).
  destruct (handleSpeakerLabels_spec (handleSpeakerLabels s (label_update first))
              (label_update second) second) as (-> & _);
    [apply Hev | reflexivity |].
  destruct (handleSpeakerLabels_spec s (label_update (first ++ second))
              (first ++ second) Hw eq_refl) as (-> & _).
  rewrite Hl1. symmetry. apply sorted_labels_unique.
  - apply merge_labels_proper; [exact Ho | apply Forall_app; auto].
  - apply merge_labels_distinct; [exact Hdo | apply distinct_spans_app; assumption].
  - apply merge_labels_strongly_sorted; [exact Ho | apply Forall_app; auto].
  - apply merge_labels_strongly_sorted; [apply merge_labels_proper|]; assumption.
  - etransitivity; [apply merge_labels_perm|]. symmetry.
    etransitivity; [apply merge_labels_perm|].
    rewrite app_assoc. apply Permutation_app_tail.
    etransitivity;
      [apply (filter_perm _ _ _ (merge_labels_perm (the_speaker_labels s) first))|].
    rewrite List.filter_app.
    change (Permutation
              (pullAllWith (pullAllWith (the_speaker_labels s) first same_span)
                 second same_span
               ++ pullAllWith first second same_span)
              (pullAllWith (the_speaker_labels s) (first ++ second) same_span ++ first)).
    rewrite pull_twice, (pull_disjoint first second Hcross). reflexivity.
Qed.

Lemma X15_witness :
  the_speaker_labels
    (handleSpeakerLabels
       (handleSpeakerLabels two_speakers (label_update [example_label 0.5 1 2 false]))
       (label_update [example_label 1.5 2 2 true]))
  = the_speaker_labels
      (handleSpeakerLabels two_speakers
         (label_update ([example_label 0.5 1 2 false] ++ [example_label 1.5 2 2 true]))).
Proof.
  apply (X15_labels_in_two_parts two_speakers
           [example_label 0.5 1 2 false] [example_label 1.5 2 2 true]).
  - split; simpl; lia.
  - repeat constructor.
  - repeat constructor.
  - repeat constructor.
  - repeat constructor.
  - repeat constructor.
  - repeat constructor.
  - intros a b [<-|[]] [<-|[]]. reflexivity.
Defined.

(** ** Labels that line up with the words *)

Lemma aligned_no_mismatch (ts : list Timestamp) (labels : list Label.t) i :
  Forall2 (fun t l => strict_eq (FROM t) (Label.from l) = true /\
                      strict_eq (TO t) (Label.to l) = true) (drop i ts) labels ->
  first_mismatch ts i labels = None.
Proof.
  revert i. induction labels as [|l labels IH]; intros i H; simpl; [reflexivity|].
  inversion H as [|t l' rest labels' [Hf Ht] Hrest Hdrop]; subst.
  assert (Hi : ts !! i = Some t).
  { rewrite <- (Nat.add_0_r i), <- lookup_drop, <- Hdrop. reflexivity. }
  rewrite Hi. simpl. unfold strict_ne. rewrite Hf, Ht. simpl.
  apply IH. pose proof (drop_S _ _ _ Hi) as Hd. rewrite Hd in Hdrop.
  injection Hdrop as ->. exact Hrest.
Qed.

Section HappyPath.

Variable noTimestamps : Data.t -> bool.
Variable ERROR_NO_TIMESTAMPS : string.

(** X16: when the labels line up with the words, nothing goes wrong.  On a
    stream that holds timestamps and no label yet, a message whose labels
    are in order and match the timestamps one for one ([===] on both ends)
    makes the stream push exactly one message and no error; the results of
    that message hold all the timestamps in order and carry the [final] of
    the last label; and closing the stream then signals nothing. *)
Theorem X16_aligned_labels_give_the_conversation (s : State)
    (speaker_labels : list Label.t) (last_label : Label.t) :
  well_formed s ->
  the_speaker_labels s = [] ->
  Sorted in_order speaker_labels ->
  Forall2 (fun t l => strict_eq (FROM t) (Label.from l) = true /\
                      strict_eq (TO t) (Label.to l) = true)
          (the_timestamps s) speaker_labels ->
  last speaker_labels = Some last_label ->
  exists results,
    snd (_transform noTimestamps ERROR_NO_TIMESTAMPS s (label_update speaker_labels))
    = [Push {| Message.results := results; Message.result_index := 0 |}] /\
    concat (map result_timestamps results) = the_timestamps s /\
    Forall (fun r => SpeakerResult.final r = Label.final last_label) results /\
    snd (_flush (fst (_transform noTimestamps ERROR_NO_TIMESTAMPS s
                        (label_update speaker_labels)))) = [].
Proof.
  intros Hw Hempty Hsorted Haligned Hlast.
  destruct (handleSpeakerLabels_spec s (label_update speaker_labels) speaker_labels
              Hw eq_refl) as (Hl & Ht & _).
  rewrite Hempty in Hl. unfold merge_labels in Hl. simpl in Hl.
  rewrite (sort_sorted_id _ _ Hsorted) in Hl.
  unfold _transform. simpl.
  set (s2 := handleSpeakerLabels s (label_update speaker_labels)) in *.
  pose proof (process_state s2) as Hst.
  assert (Hfm : first_mismatch (the_timestamps s2) 0 (the_speaker_labels s2) = None).
  { apply aligned_no_mismatch. rewrite drop_0, Hl, Ht. exact Haligned. }
  destruct (process_pushed_results s2 Hfm) as [Hlen Hres].
  destruct (reduce_invariant (isFinal s2) (zip (the_timestamps s2) (the_speaker_labels s2)))
    as (H1 & _ & H3 & _).
  rewrite zip_fst_take in H1 by exact Hlen. rewrite <- Hres in H1, H3.
  assert (Hsame : length (the_speaker_labels s2) = length (the_timestamps s2)).
  { rewrite Hl, Ht. symmetry. exact (Forall2_length _ _ _ Haligned). }
  assert (Hfinal : isFinal s2 = Label.final last_label).
  { unfold isFinal. rewrite Hl. rewrite last_lookup in Hlast.
    destruct speaker_labels as [|l ls]; [discriminate|]. simpl in *.
    replace (length ls - 0) with (length ls) by lia. rewrite Hlast. reflexivity. }
  assert (Hne : the_speaker_labels s2 <> []).
  { rewrite Hl. intros ->. discriminate. }
  destruct (process_one_event s2) as [Hp|[[err Hp]|(results & Hr & Hp)]].
  - exfalso. rewrite Hp in H1. simpl in H1. apply (f_equal length) in H1.
    rewrite length_take in H1. simpl in H1. rewrite <- Hsame, Nat.min_id in H1.
    destruct (the_speaker_labels s2); [contradiction|discriminate].
  - exfalso. destruct (process_aligned s2 Hfm) as [_ Hq]. rewrite Hq in Hp.
    destruct (length _ =? 0)%nat; discriminate.
  - destruct (process s2) as [s3 evs3]. simpl in *. subst s3 evs3.
    exists results. unfold pushed_results in H1, H3. simpl in H1, H3.
    rewrite app_nil_r in H1, H3.
    split; [reflexivity|]. split; [|split].
    + rewrite H1, Hsame, firstn_all, Ht. reflexivity.
    + rewrite <- Hfinal. eapply Forall_impl; [exact H3|]. simpl. intros r (_ & Hb & _).
      exact Hb.
    + unfold _flush. rewrite Hsame, Nat.eqb_refl. reflexivity.
Qed.

End HappyPath.

Lemma X16_witness :
  exists results,
    snd (_transform example_noTimestamps example_ERROR_NO_TIMESTAMPS
           (example_stream [word_yes; word_there; word_right] [])
           (label_update (the_speaker_labels two_speakers)))
    = [Push {| Message.results := results; Message.result_index := 0 |}] /\
    concat (map result_timestamps results)
    = the_timestamps (example_stream [word_yes; word_there; word_right] []) /\
    Forall (fun r => SpeakerResult.final r = Label.final (example_label 1 1.5 2 true))
           results /\
    snd (_flush (fst (_transform example_noTimestamps example_ERROR_NO_TIMESTAMPS
                        (example_stream [word_yes; word_there; word_right] [])
                        (label_update (the_speaker_labels two_speakers))))) = [].
Proof.
  apply (X16_aligned_labels_give_the_conversation example_noTimestamps
           example_ERROR_NO_TIMESTAMPS
           (example_stream [word_yes; word_there; word_right] [])
           (the_speaker_labels two_speakers) (example_label 1 1.5 2 true)).
  - split; simpl; lia.
  - reflexivity.
  - repeat constructor; unfold in_order; simpl; vm_compute; discriminate.
  - repeat constructor.
  - reflexivity.
Defined.

(** ** Instances *)

Lemma X1_witness :
  the_timestamps
    (fst (handleResults example_noTimestamps example_ERROR_NO_TIMESTAMPS
            new_SpeakerStream mixed_results))
  = the_timestamps new_SpeakerStream
    ++ final_timestamps
         [Result.mk true (Alternative.mk "Yes " [word_yes]);
          Result.mk false (Alternative.mk "the " [word_there]);
          Result.mk true (Alternative.mk "there " [word_there])] /\
  snd (handleResults example_noTimestamps example_ERROR_NO_TIMESTAMPS
         new_SpeakerStream mixed_results) = [] /\
  the_speaker_labels
    (fst (handleResults example_noTimestamps example_ERROR_NO_TIMESTAMPS
            new_SpeakerStream mixed_results))
  = the_speaker_labels new_SpeakerStream.
Proof.
  apply (X1_handleResults_keeps_final_results example_noTimestamps
           example_ERROR_NO_TIMESTAMPS new_SpeakerStream mixed_results).
  - split; simpl; lia.
  - reflexivity.
  - reflexivity.
Defined.

(** The interim result of [mixed_results] leaves no timestamp. *)
Example interim_results_are_ignored :
  the_timestamps
    (fst (handleResults example_noTimestamps example_ERROR_NO_TIMESTAMPS
            new_SpeakerStream mixed_results))
  = [word_yes; word_there].
Proof. reflexivity. Qed.

Lemma X4_witness :
  the_timestamps
    (fst (run example_noTimestamps example_ERROR_NO_TIMESTAMPS new_SpeakerStream
            (two_speakers_inputs ++ [untimed_message; mixed_results])))
  = the_timestamps new_SpeakerStream
    ++ concat (map (accepted_timestamps example_noTimestamps)
                   (two_speakers_inputs ++ [untimed_message; mixed_results])).
Proof.
  apply (X4_timestamps_append_only example_noTimestamps example_ERROR_NO_TIMESTAMPS
           new_SpeakerStream (two_speakers_inputs ++ [untimed_message; mixed_results])).
  split; simpl; lia.
Defined.

Lemma X5_witness :
  the_speaker_labels
    (fst (run example_noTimestamps example_ERROR_NO_TIMESTAMPS new_SpeakerStream
            (two_speakers_inputs ++ [untimed_message; mixed_results])))
  = fold_left merge_labels
      (label_batches (two_speakers_inputs ++ [untimed_message; mixed_results]))
      (the_speaker_labels new_SpeakerStream).
Proof.
  apply (X5_labels_follow_label_updates example_noTimestamps
           example_ERROR_NO_TIMESTAMPS new_SpeakerStream
           (two_speakers_inputs ++ [untimed_message; mixed_results])).
  split; simpl; lia.
Defined.

Lemma X7_witness :
  messages_of
    (snd (_transform example_noTimestamps example_ERROR_NO_TIMESTAMPS two_speakers
            mixed_results))
  = messages_of (snd (process two_speakers)).
Proof.
  apply (X7_results_only_message_repeats example_noTimestamps
           example_ERROR_NO_TIMESTAMPS two_speakers mixed_results).
  - split; simpl; lia.
  - reflexivity.
  - reflexivity.
Defined.
